(** * GeoVizPy: scene-state callbacks and data fusion of [geovizpy.py]

    A shallow embedding of the callbacks of [src/geovizpy.py] that mutate the
    render actors and the shared trame state, and of the two fusion calls
    (nearest-neighbour resampling of the CMD raster onto the DEM mesh, draping
    of the aerial image over the DEM).

    Python floats are represented by exact rationals [Q]: the callbacks only
    copy and compare them, and the resampling compares squared distances.
    Python exceptions are explicit outcomes, and the
    world an exception leaves behind is kept, as Python keeps every mutation
    made before the [raise]. *)

From Stdlib Require Import QArith Lqa Ascii.
From stdpp Require Import base list strings.

Local Open Scope nat_scope.

(** ** The data the callbacks share *)

(** A render actor, as far as the callbacks touch it: the visibility flag
    ([SetVisibility]), the opacity of its property
    ([GetProperty().SetOpacity]) and the scalar range of its mapper
    ([mapper.scalar_range]). *)
Record Actor := mkActor {
  Visibility : bool;
  Opacity : Q;
  scalar_range : Q * Q
}.

(** The three module-level actor lists of the script. *)
Inductive ActorRef :=
| in_actor_profile (i : nat)
| in_actor_dem (i : nat)
| in_actor_cmd (i : nat).

(** Calls into the two external collaborators (the render actors and the
    trame controller/state), in program order.  [view_update] is the redraw
    signal: [ctrl.view_update()]. *)
Inductive Call :=
| SetVisibility (a : ActorRef) (flag : bool)
| SetOpacity (a : ActorRef) (value : Q)
| set_scalar_range (a : ActorRef) (clim : Q * Q)
| dirty (name : string)
| view_update.

(** Module-level mutable state of the script.  [len_mesh] is [len(mesh)],
    the only thing the callbacks read from the list of profile meshes. *)
Record World := mkWorld {
  len_mesh : nat;
  visibilityList : list bool;
  visibilityDEM : list bool;
  visibilityCMD : list bool;
  actor_profile : list Actor;
  actor_dem : list Actor;
  actor_cmd : list Actor;
  calls : list Call
}.

Definition with_visibilityList (l : list bool) (w : World) : World :=
  mkWorld (len_mesh w) l (visibilityDEM w) (visibilityCMD w)
          (actor_profile w) (actor_dem w) (actor_cmd w) (calls w).
Definition with_visibilityDEM (l : list bool) (w : World) : World :=
  mkWorld (len_mesh w) (visibilityList w) l (visibilityCMD w)
          (actor_profile w) (actor_dem w) (actor_cmd w) (calls w).
Definition with_visibilityCMD (l : list bool) (w : World) : World :=
  mkWorld (len_mesh w) (visibilityList w) (visibilityDEM w) l
          (actor_profile w) (actor_dem w) (actor_cmd w) (calls w).
Definition with_actor_profile (l : list Actor) (w : World) : World :=
  mkWorld (len_mesh w) (visibilityList w) (visibilityDEM w) (visibilityCMD w)
          l (actor_dem w) (actor_cmd w) (calls w).
Definition with_actor_dem (l : list Actor) (w : World) : World :=
  mkWorld (len_mesh w) (visibilityList w) (visibilityDEM w) (visibilityCMD w)
          (actor_profile w) l (actor_cmd w) (calls w).
Definition with_actor_cmd (l : list Actor) (w : World) : World :=
  mkWorld (len_mesh w) (visibilityList w) (visibilityDEM w) (visibilityCMD w)
          (actor_profile w) (actor_dem w) l (calls w).
Definition with_calls (l : list Call) (w : World) : World :=
  mkWorld (len_mesh w) (visibilityList w) (visibilityDEM w) (visibilityCMD w)
          (actor_profile w) (actor_dem w) (actor_cmd w) l.

(** ** Python statements as world transformers *)

Inductive Exc :=
| IndexError
| InvalidInputError
| GeoreferenceMismatchError.

Inductive Outcome (A : Type) :=
| Ok (a : A) (w : World)
| Raise (e : Exc) (w : World).
Arguments Ok {A} a w.
Arguments Raise {A} e w.

Definition Py (A : Type) : Type := World -> Outcome A.

Definition ret {A} (a : A) : Py A := fun w => Ok a w.
Definition bind {A B} (m : Py A) (k : A -> Py B) : Py B :=
  fun w => match m w with
           | Ok a w' => k a w'
           | Raise e w' => Raise e w'
           end.

Notation "x <- m ;; k" := (bind m (fun x => k))
  (at level 100, m at next level, right associativity).
Notation "m ;;; k" := (bind m (fun _ => k))
  (at level 100, right associativity).

(** [for x in l: body x] *)
Fixpoint for_in {A} (l : list A) (body : A -> Py unit) : Py unit :=
  match l with
  | [] => ret tt
  | x :: l' => body x ;;; for_in l' body
  end.

(** [for i in range(n): body i] *)
Definition for_range (n : nat) (body : nat -> Py unit) : Py unit :=
  for_in (seq 0 n) body.

Definition call (c : Call) : Py unit :=
  fun w => Ok tt (with_calls (calls w ++ [c]) w).

Definition the_world {A} (o : Outcome A) : World :=
  match o with Ok _ w => w | Raise _ w => w end.

(** The number of redraw signals in a log of calls. *)
Fixpoint redraws (l : list Call) : nat :=
  match l with
  | [] => 0
  | view_update :: l' => S (redraws l')
  | _ :: l' => redraws l'
  end.

(** The world's actor list an [ActorRef] points into. *)
Definition actors_of (a : ActorRef) (w : World) : list Actor :=
  match a with
  | in_actor_profile _ => actor_profile w
  | in_actor_dem _ => actor_dem w
  | in_actor_cmd _ => actor_cmd w
  end.
Definition index_of (a : ActorRef) : nat :=
  match a with
  | in_actor_profile i | in_actor_dem i | in_actor_cmd i => i
  end.
Definition with_actors_of (a : ActorRef) (l : list Actor) (w : World) : World :=
  match a with
  | in_actor_profile _ => with_actor_profile l w
  | in_actor_dem _ => with_actor_dem l w
  | in_actor_cmd _ => with_actor_cmd l w
  end.

(** [lst[i].method(...)]: the subscript raises [IndexError] out of range;
    otherwise the actor object is mutated in place (it stays in its list). *)
Definition on_actor (a : ActorRef) (f : Actor -> Actor) : Py unit :=
  fun w => match actors_of a w !! index_of a with
           | Some x => Ok tt (with_actors_of a (<[index_of a := f x]> (actors_of a w)) w)
           | None => Raise IndexError w
           end.

(** [lst[i] = v] on a list of the trame state: [IndexError] out of range. *)
Definition setitem (get : World -> list bool) (put : list bool -> World -> World)
    (i : nat) (v : bool) : Py unit :=
  fun w => match get w !! i with
           | Some _ => Ok tt (put (<[i := v]> (get w)) w)
           | None => Raise IndexError w
           end.

(** *** The actor methods *)

(** [lst[i].SetVisibility(flag)] *)
Definition Actor_SetVisibility (a : ActorRef) (flag : bool) : Py unit :=
  on_actor a (fun x => mkActor flag (Opacity x) (scalar_range x)) ;;;
  call (SetVisibility a flag).

(** Modelled from the spec: the property setter behind
    [GetProperty().SetOpacity(v)] belongs to the rendering library and is not
    in [src/]; the spec words it as "opacity clamped to [0,1]", any input
    outside [0,1] going to the nearest bound. *)
Definition clamp01 (v : Q) : Q :=
  if Qlt_le_dec v 0 then 0%Q
  else if Qlt_le_dec 1 v then 1%Q
  else v.

(** [lst[i].GetProperty().SetOpacity(v)]: the script passes [v] as it is;
    the property stores it clamped. *)
Definition Actor_SetOpacity (a : ActorRef) (v : Q) : Py unit :=
  on_actor a (fun x => mkActor (Visibility x) (clamp01 v) (scalar_range x)) ;;;
  call (SetOpacity a v).

(** [actor.mapper.scalar_range = clim]: a plain assignment, nothing is
    checked on the way. *)
Definition Actor_set_scalar_range (a : ActorRef) (clim : Q * Q) : Py unit :=
  on_actor a (fun x => mkActor (Visibility x) (Opacity x) clim) ;;;
  call (set_scalar_range a clim).

(** ** The callbacks of the script *)

Definition hide_profile (num : nat) (flag : bool) : Py unit :=
  Actor_SetVisibility (in_actor_profile num) flag ;;;
  call view_update.

Definition hide_DEM (flag : bool) : Py unit :=
  Actor_SetVisibility (in_actor_dem 0) flag ;;;
  call view_update.

Definition hide_CMD (flag : bool) : Py unit :=
  Actor_SetVisibility (in_actor_cmd 0) flag ;;;
  call view_update.

Definition update_profile_visibility (index : nat) (visibility : bool) : Py unit :=
  setitem visibilityList with_visibilityList index visibility ;;;
  call (dirty "visibilityList") ;;;
  hide_profile index visibility.

Definition update_DEM_visibility (visibility : bool) : Py unit :=
  setitem visibilityDEM with_visibilityDEM 0 visibility ;;;
  call (dirty "visibilityDEM") ;;;
  hide_DEM visibility.

Definition update_CMD_visibility (visibility : bool) : Py unit :=
  setitem visibilityCMD with_visibilityCMD 0 visibility ;;;
  call (dirty "visibilityCMD") ;;;
  hide_CMD visibility.

(** [len(mesh)] *)
Definition get_len_mesh : Py nat := fun w => Ok (len_mesh w) w.

Definition set_vel_range (vel_range : Q * Q) : Py unit :=
  n <- get_len_mesh ;;
  for_range n (fun j => Actor_set_scalar_range (in_actor_profile j) vel_range) ;;;
  call view_update.

Definition set_res_range (res_range : Q * Q) : Py unit :=
  Actor_set_scalar_range (in_actor_cmd 0) res_range ;;;
  call view_update.

Definition update_opacity_dem (mnt_opacity : Q) : Py unit :=
  Actor_SetOpacity (in_actor_dem 0) mnt_opacity ;;;
  call view_update.

Definition update_opacity_cmd (cmd_opacity : Q) : Py unit :=
  Actor_SetOpacity (in_actor_cmd 0) cmd_opacity ;;;
  call view_update.

(** The event of the pipeline tree: [event["id"]], [event["visible"]]. *)
Record VisibilityEvent := mkEvent {
  event_id : string;
  event_visible : bool
}.

Definition visibility_change (event : VisibilityEvent) : Py unit :=
  let _id := event_id event in
  let _visibility := event_visible event in
  (if decide (_id = "1") then
     n <- get_len_mesh ;;
     for_range n (fun i => update_profile_visibility i _visibility)
   else if decide (_id = "2") then
     update_DEM_visibility _visibility ;;;
     update_CMD_visibility _visibility
   else ret tt) ;;;
  call view_update.

(** ** Scenes *)

(** The shape the script builds before any callback runs: one visibility
    entry and one actor per profile mesh, one DEM actor, one CMD actor. *)
Definition scene_ok (w : World) : Prop :=
  length (visibilityList w) = len_mesh w /\
  length (actor_profile w) = len_mesh w /\
  length (visibilityDEM w) = 1 /\
  length (actor_dem w) = 1 /\
  length (visibilityCMD w) = 1 /\
  length (actor_cmd w) = 1.

(** An actor as [pl.add_mesh] returns it: visible. *)
Definition shown (opacity : Q) (clim : Q * Q) : Actor := mkActor true opacity clim.

(** The scene of the script: five seismic profiles, the aerial image added
    with [opacity=0.7], the CMD map added with [opacity=1].  The scalar
    ranges are those of the data files; sample values stand for them. *)
Definition script_scene : World :=
  mkWorld 5 [true; true; true; true; true] [true] [true]
          [shown 1 (1500, 3000)%Q; shown 1 (1200, 4200)%Q; shown 1 (900, 3800)%Q;
           shown 1 (1000, 4000)%Q; shown 1 (1100, 3500)%Q]
          [shown (7 # 10) (2000, 2500)%Q] [shown 1 (10, 500)%Q] [].

(** The registry ["profA", "profB", "dem", "cmd"] of the spec's scenario. *)
Definition sceneAB : World :=
  mkWorld 2 [true; true] [true] [true]
          [shown 1 (1500, 3000)%Q; shown 1 (1200, 4200)%Q]
          [shown (7 # 10) (2000, 2500)%Q] [shown 1 (10, 500)%Q] [].

(** ** What the callbacks leave behind *)

Definition set_visible (flag : bool) (x : Actor) : Actor :=
  mkActor flag (Opacity x) (scalar_range x).
Definition set_opacity (v : Q) (x : Actor) : Actor :=
  mkActor (Visibility x) (clamp01 v) (scalar_range x).
Definition set_range (clim : Q * Q) (x : Actor) : Actor :=
  mkActor (Visibility x) (Opacity x) clim.

(** [f] applied to the first [k] elements of [l], the rest as it was: what a
    loop over [range(k)] that rewrites element [i] at step [i] has done. *)
Definition upto {A} (f : A -> A) (k : nat) (l : list A) : list A :=
  map f (take k l) ++ drop k l.

(** The calls one [update_profile_visibility i v] makes. *)
Definition profile_calls (v : bool) (i : nat) : list Call :=
  [dirty "visibilityList"; SetVisibility (in_actor_profile i) v; view_update].

(** The world after [update_profile_visibility 0 v], ..., [k-1] have run. *)
Definition after_profiles (k : nat) (v : bool) (w : World) : World :=
  mkWorld (len_mesh w)
          (upto (fun _ => v) k (visibilityList w))
          (visibilityDEM w) (visibilityCMD w)
          (upto (set_visible v) k (actor_profile w))
          (actor_dem w) (actor_cmd w)
          (calls w ++ flat_map (profile_calls v) (seq 0 k)).

(** The call one step of [set_vel_range]'s loop makes, and the world after
    the first [k] steps. *)
Definition range_calls (clim : Q * Q) (j : nat) : list Call :=
  [set_scalar_range (in_actor_profile j) clim].

Definition after_ranges (k : nat) (clim : Q * Q) (w : World) : World :=
  with_calls (calls w ++ flat_map (range_calls clim) (seq 0 k))
    (with_actor_profile (upto (set_range clim) k (actor_profile w)) w).

(** The calls [update_DEM_visibility v] and then [update_CMD_visibility v]
    make. *)
Definition maps_calls (v : bool) : list Call :=
  [dirty "visibilityDEM"; SetVisibility (in_actor_dem 0) v; view_update;
   dirty "visibilityCMD"; SetVisibility (in_actor_cmd 0) v; view_update].

(** ** Fusion: the CMD raster resampled onto the DEM mesh *)

Definition Point : Type := Q * Q.

(** A row of a VTK point array, (x, y, z); the script reads columns 0 and 1. *)
Definition Row : Type := Q * Q * Q.
Definition col0 (p : Row) : Q := fst (fst p).
Definition col1 (p : Row) : Q := snd (fst p).

(** The square of the Euclidean distance; it orders pairs of points as the
    distance itself does. *)
Definition dist2 (p q : Point) : Q :=
  ((fst p - fst q) * (fst p - fst q) + (snd p - snd q) * (snd p - snd q))%Q.

(** The index of the entry of [l] nearest to [t], scanning from index [i],
    [best] at distance [bd] being the nearest seen so far; an entry replaces
    the best one only when strictly nearer, so the lowest index wins a tie. *)
Fixpoint nearest_from (t : Point) (best : nat) (bd : Q) (i : nat)
    (l : list Point) : nat :=
  match l with
  | [] => best
  | p :: l' =>
      if Qlt_le_dec (dist2 p t) bd
      then nearest_from t i (dist2 p t) (S i) l'
      else nearest_from t best bd (S i) l'
  end.

Definition nearest (pts : list Point) (t : Point) : nat :=
  match pts with
  | [] => 0
  | p :: l => nearest_from t 0 (dist2 p t) 1 l
  end.

(** Modelled from the spec: [scipy.interpolate.NearestNDInterpolator], the
    constructor and the query the script calls, is library code that is not
    in [src/].  The spec's words: it "fails with InvalidInputError when
    sourcePoints is empty, or when sourcePoints and sourceValues lengths
    differ"; "each output value is the sourceValue whose sourcePoint has
    minimum Euclidean distance to the corresponding target point", the lowest
    source index on a tie; "every target point receives a value". *)
Record NearestNDInterpolator := mkInterp {
  points : list Point;
  values : list Q
}.

(** Modelled from the spec: the constructor, absent from [src/]; it "fails
    with InvalidInputError when sourcePoints is empty, or when sourcePoints
    and sourceValues lengths differ". *)
Definition NearestNDInterpolator_init (x : list Point) (y : list Q)
    : Exc + NearestNDInterpolator :=
  match x with
  | [] => inl InvalidInputError
  | _ :: _ =>
      if decide (length x = length y) then inr (mkInterp x y)
      else inl InvalidInputError
  end.

(** Modelled from the spec: the query [interp(xs, ys)], absent from [src/];
    one value per target point, that of the nearest source point. *)
Definition NearestNDInterpolator_call (interp : NearestNDInterpolator)
    (xs ys : list Q) : list Q :=
  map (fun t => default 0%Q (values interp !! nearest (points interp) t))
      (combine xs ys).

(** Lines 163-174 of the script: the CMD points and their resistivity are
    the sources, the DEM points the targets. *)
Definition cmd_interp (xy_cmd : list Row) (array_cmd : list Q)
    (xy_dem : list Row) : Exc + list Q :=
  let xy_list := combine (map col0 xy_cmd) (map col1 xy_cmd) in
  match NearestNDInterpolator_init xy_list array_cmd with
  | inl e => inl e
  | inr interp =>
      inr (NearestNDInterpolator_call interp (map col0 xy_dem) (map col1 xy_dem))
  end.

Definition xy (p : Row) : Point := (col0 p, col1 p).

(** ** Fusion: the aerial image draped over the DEM *)

Record Vertex := mkVertex { vx : Q; vy : Q; vz : Q }.

(** The elevation surface handed to the draping: its declared reference
    system and its vertices. *)
Record ElevationMesh := mkElevationMesh {
  dem_crs : string;
  dem_vertices : list Vertex
}.

(** The colour raster: its declared reference system, its bounding box
    [left, bottom, right, top] and its rows of RGB pixels. *)
Record ImageRaster := mkImageRaster {
  image_crs : string;
  left_bound : Q;
  bottom_bound : Q;
  right_bound : Q;
  top_bound : Q;
  pixels : list (list (nat * nat * nat))
}.

(** Modelled from the spec: [gemgis.visualization.drape_array_over_dem] is
    library code that is not in [src/]; the script only calls it, with
    [zmax=3000].  The spec's words (4.2): the planar position of every vertex
    is looked up in the raster, "out-of-raster vertices receive the raster's
    edge-clamped pixel"; "vertices whose elevation exceeds maxElevation are
    clamped to maxElevation in the output geometry"; texture coordinates are
    "normalized to [0,1]x[0,1] over the raster's bounding box"; it "fails
    with GeoreferenceMismatchError" when the two declared reference systems
    differ. *)
Definition texture_coordinate (image : ImageRaster) (v : Vertex) : Q * Q :=
  (clamp01 ((vx v - left_bound image) / (right_bound image - left_bound image)),
   clamp01 ((vy v - bottom_bound image) / (top_bound image - bottom_bound image))).

(** Modelled from the spec: the elevation ceiling of the draping, "clamped to
    maxElevation"; the planar position is not touched. *)
Definition clamp_elevation (zmax : Q) (v : Vertex) : Vertex :=
  mkVertex (vx v) (vy v) (if Qlt_le_dec zmax (vz v) then zmax else vz v).

(** Modelled from the spec: [drape_array_over_dem] itself, absent from
    [src/]: the draped mesh, the texture image and the texture coordinates,
    or [GeoreferenceMismatchError]. *)
Definition drape_array_over_dem (array : ImageRaster) (dem : ElevationMesh)
    (zmax : Q)
    : Exc + (list Vertex * list (list (nat * nat * nat)) * list (Q * Q)) :=
  if decide (image_crs array = dem_crs dem) then
    inr (map (clamp_elevation zmax) (dem_vertices dem),
         pixels array,
         map (texture_coordinate array) (dem_vertices dem))
  else inl GeoreferenceMismatchError.

(** Lines 148-150 of the script. *)
Definition mesh_aerial_texture (wms_aerial_rgb : ImageRaster) (dem : ElevationMesh) :=
  drape_array_over_dem wms_aerial_rgb dem 3000.

(** A raster over the script's bounding box and a DEM with one vertex above
    3000 m and one below. *)
Definition sample_image : ImageRaster :=
  mkImageRaster "EPSG:2154" 966860 6446505 967275 6446800 [].
Definition sample_dem : ElevationMesh :=
  mkElevationMesh "EPSG:2154"
    [mkVertex 966900 6446600 3100; mkVertex 967000 6446700 2400].

(** ** The scene under construction *)

(** Lines 184-189: the actor lists are empty and the visibility lists are
    written out, five entries for the profiles; [n] is [len(mesh)]. *)
Definition initial_world (n : nat) : World :=
  mkWorld n [true; true; true; true; true] [true] [true] [] [] [] [].

(** [pl.add_mesh(..., opacity=o)], as far as the callbacks later look at what
    it returns: a new actor, visible, with the requested opacity and the data
    range of its scalars. *)
Definition add_mesh (opacity : Q) (clim : Q * Q) : Actor := shown opacity clim.

(** [actor_profile.append(x)], [actor_dem.append(x)], [actor_cmd.append(x)] *)
Definition actor_profile_append (x : Actor) : Py unit :=
  fun w => Ok tt (with_actor_profile (actor_profile w ++ [x]) w).
Definition actor_dem_append (x : Actor) : Py unit :=
  fun w => Ok tt (with_actor_dem (actor_dem w ++ [x]) w).
Definition actor_cmd_append (x : Actor) : Py unit :=
  fun w => Ok tt (with_actor_cmd (actor_cmd w ++ [x]) w).

(** Lines 443-462: one actor per profile mesh, then the draped aerial image
    with [opacity=0.7], then the CMD map with [opacity=1].  [vel i] is the
    velocity range of [mesh[i]]. *)
Definition build_scene (vel : nat -> Q * Q) (elev res : Q * Q) : Py unit :=
  n <- get_len_mesh ;;
  for_range n (fun i => actor_profile_append (add_mesh 1 (vel i))) ;;;
  actor_dem_append (add_mesh (7 # 10) elev) ;;;
  actor_cmd_append (add_mesh 1 res).

(** The world [build_scene] returns from [initial_world n]. *)
Definition built (n : nat) (vel : nat -> Q * Q) (elev res : Q * Q) : World :=
  mkWorld n [true; true; true; true; true] [true] [true]
          (map (fun i => add_mesh 1 (vel i)) (seq 0 n))
          [add_mesh (7 # 10) elev] [add_mesh 1 res] [].

(** ** What the user interface sends *)

(** The bindings of the widgets to the callbacks: the checkboxes of
    [mesh_card] and [maps_card] ([change=(update_..., ...)]), the state
    variables watched with [@state.change] and the eye of the pipeline tree
    ([visibility_change=(visibility_change, "[$event]")]). *)
Inductive Intent :=
| profile_checkbox (i : nat) (v : bool)
| DEM_checkbox (v : bool)
| CMD_checkbox (v : bool)
| vel_range_change (r : Q * Q)
| res_range_change (r : Q * Q)
| mnt_opacity_change (o : Q)
| cmd_opacity_change (o : Q)
| tree_visibility (event : VisibilityEvent).

Definition dispatch (e : Intent) : Py unit :=
  match e with
  | profile_checkbox i v => update_profile_visibility i v
  | DEM_checkbox v => update_DEM_visibility v
  | CMD_checkbox v => update_CMD_visibility v
  | vel_range_change r => set_vel_range r
  | res_range_change r => set_res_range r
  | mnt_opacity_change o => update_opacity_dem o
  | cmd_opacity_change o => update_opacity_cmd o
  | tree_visibility event => visibility_change event
  end.

(** The intents in the order they arrive; an exception ends the run. *)
Definition serve (es : list Intent) : Py unit := for_in es dispatch.

(** [mesh_card] draws one checkbox per entry of [visibilityList]
    ([v_for="v, i in visibilityList"]), so the index it sends is one of that
    list. *)
Definition offered (w : World) (e : Intent) : Prop :=
  match e with
  | profile_checkbox i _ => i < length (visibilityList w)
  | _ => True
  end.

(** The world without its log of calls. *)
Definition layers (w : World) : World := with_calls [] w.

(** Each entry of a visibility list is the visibility of the actor at the
    same index. *)
Definition mirrored (w : World) : Prop :=
  visibilityList w = map Visibility (actor_profile w) /\
  visibilityDEM w = map Visibility (actor_dem w) /\
  visibilityCMD w = map Visibility (actor_cmd w).

(** The world an intent leaves on a scene the script has built. *)
Definition effect (e : Intent) (w : World) : World :=
  match e with
  | profile_checkbox i v =>
      with_calls (calls w ++ profile_calls v i)
        (with_actor_profile (alter (set_visible v) i (actor_profile w))
           (with_visibilityList (<[i := v]> (visibilityList w)) w))
  | DEM_checkbox v =>
      with_calls (calls w ++ [dirty "visibilityDEM";
                              SetVisibility (in_actor_dem 0) v; view_update])
        (with_actor_dem (map (set_visible v) (actor_dem w))
           (with_visibilityDEM (map (fun _ => v) (visibilityDEM w)) w))
  | CMD_checkbox v =>
      with_calls (calls w ++ [dirty "visibilityCMD";
                              SetVisibility (in_actor_cmd 0) v; view_update])
        (with_actor_cmd (map (set_visible v) (actor_cmd w))
           (with_visibilityCMD (map (fun _ => v) (visibilityCMD w)) w))
  | vel_range_change r =>
      with_calls (calls w ++ flat_map (range_calls r) (seq 0 (len_mesh w))
                          ++ [view_update])
        (with_actor_profile (map (set_range r) (actor_profile w)) w)
  | res_range_change r =>
      with_calls (calls w ++ [set_scalar_range (in_actor_cmd 0) r; view_update])
        (with_actor_cmd (map (set_range r) (actor_cmd w)) w)
  | mnt_opacity_change o =>
      with_calls (calls w ++ [SetOpacity (in_actor_dem 0) o; view_update])
        (with_actor_dem (map (set_opacity o) (actor_dem w)) w)
  | cmd_opacity_change o =>
      with_calls (calls w ++ [SetOpacity (in_actor_cmd 0) o; view_update])
        (with_actor_cmd (map (set_opacity o) (actor_cmd w)) w)
  | tree_visibility event =>
      let v := event_visible event in
      if decide (event_id event = "1") then
        with_calls (calls w ++ flat_map (profile_calls v) (seq 0 (len_mesh w))
                            ++ [view_update])
          (with_actor_profile (map (set_visible v) (actor_profile w))
             (with_visibilityList (map (fun _ => v) (visibilityList w)) w))
      else if decide (event_id event = "2") then
        with_calls (calls w ++ maps_calls v ++ [view_update])
          (with_actor_cmd (map (set_visible v) (actor_cmd w))
             (with_visibilityCMD (map (fun _ => v) (visibilityCMD w))
                (with_actor_dem (map (set_visible v) (actor_dem w))
                   (with_visibilityDEM (map (fun _ => v) (visibilityDEM w)) w))))
      else with_calls (calls w ++ [view_update]) w
  end.

(** The redraw signals one intent costs on a scene with [n] profiles. *)
Definition redraw_cost (n : nat) (e : Intent) : nat :=
  match e with
  | tree_visibility event =>
      if decide (event_id event = "1") then n + 1
      else if decide (event_id event = "2") then 3
      else 1
  | _ => 1
  end.

(** Two intents that write the same attribute of the same layers. *)
Definition same_target (e1 e2 : Intent) : Prop :=
  match e1, e2 with
  | profile_checkbox i _, profile_checkbox j _ => i = j
  | DEM_checkbox _, DEM_checkbox _ => True
  | CMD_checkbox _, CMD_checkbox _ => True
  | vel_range_change _, vel_range_change _ => True
  | res_range_change _, res_range_change _ => True
  | mnt_opacity_change _, mnt_opacity_change _ => True
  | cmd_opacity_change _, cmd_opacity_change _ => True
  | tree_visibility a, tree_visibility b => event_id a = event_id b
  | _, _ => False
  end.

(** The scene the script would build from four, and from six, profile files. *)
Definition four_meshes : World :=
  built 4 (fun _ => (1000, 4000)%Q) (2000, 2500)%Q (10, 500)%Q.
Definition six_meshes : World :=
  built 6 (fun _ => (1000, 4000)%Q) (2000, 2500)%Q (10, 500)%Q.

(** ** The drawer: which card is shown *)

(** [actives_change(ids)]: the value it assigns to [state.active_ui];
    [ids[0]] raises [IndexError] on an empty list. *)
Definition actives_change (ids : list string) : Exc + string :=
  match ids !! 0 with
  | None => inl IndexError
  | Some _id =>
      inr (if decide (_id = "1") then "Geophysical profiles"
           else if decide (_id = "2") then "Images and maps"
           else if decide (_id = "3") then "Settings"
           else "nothing")
  end.

(** [ui_card] shows its card under [v_show = "active_ui == '<ui_name>'"];
    [active_ui] starts as [None] ([state.setdefault("active_ui", None)]). *)
Definition v_show (ui_name : string) (active_ui : option string) : bool :=
  bool_decide (active_ui = Some ui_name).

(** The [ui_name] of [mesh_card], [maps_card] and [scale_card], in the order
    the drawer lists them. *)
Definition drawer_cards : list string :=
  ["Geophysical profiles"; "Images and maps"; "Settings"].

Definition shown_cards (active_ui : option string) : list string :=
  filter (fun ui_name => v_show ui_name active_ui = true) drawer_cards.

(** The nodes of [pipeline_widget]. *)
Record Node := mkNode {
  node_id : string;
  node_parent : string;
  node_visible : nat;
  node_name : string
}.

Definition pipeline : list Node :=
  [mkNode "1" "0" 1 "Geophysical profiles";
   mkNode "2" "1" 1 "Images and maps";
   mkNode "3" "2" 1 "Colormap settings"].

(** ** The labels of the profiles *)

(** Python strings as lists of characters. *)
Definition str : Type := list Ascii.ascii.

(** [s.rfind(c)] for a single character: the index of its last occurrence,
    [None] for -1. *)
Fixpoint rfind (c : Ascii.ascii) (s : str) : option nat :=
  match s with
  | [] => None
  | x :: s' =>
      match rfind c s' with
      | Some i => Some (S i)
      | None => if decide (x = c) then Some 0 else None
      end
  end.

(** [s.rstrip(c)] *)
Fixpoint rstrip (c : Ascii.ascii) (s : str) : str :=
  match s with
  | [] => []
  | x :: s' =>
      match rstrip c s' with
      | [] => if decide (x = c) then [] else [x]
      | r => x :: r
      end
  end.

(** [os.path.split] of [posixpath]: the tail is what follows the last
    slash; the head is what precedes it, without its trailing slashes unless
    it consists of slashes only. *)
Definition os_path_split (p : str) : str * str :=
  let i := match rfind "/"%char p with Some k => S k | None => 0 end in
  let head := take i p in
  let tail := drop i p in
  let head := if decide (head <> [] /\ head <> replicate (length head) "/"%char)
              then rstrip "/"%char head else head in
  (head, tail).

(** [os.path.splitext] of [posixpath]: the extension starts at the last dot
    of the last component, unless only dots precede it there. *)
Definition os_path_splitext (p : str) : str * str :=
  let sepIndex := rfind "/"%char p in
  let filenameIndex := match sepIndex with Some k => S k | None => 0 end in
  match rfind "."%char p with
  | Some dotIndex =>
      if decide (filenameIndex <= dotIndex) then
        if forallb (fun x => bool_decide (x = "."%char))
                   (take (dotIndex - filenameIndex) (drop filenameIndex p))
        then (p, [])
        else (take dotIndex p, drop dotIndex p)
      else (p, [])
  | None => (p, [])
  end.

(** Lines 113-118: the label of one file, [filename[0:15]], and the list
    [state.name_mesh]. *)
Definition label (temp : str) : str :=
  let '(dirName, fileName) := os_path_split temp in
  let '(filename, fileExtension) := os_path_splitext fileName in
  take 15 filename.

Definition name_mesh (vtk_file_list : list str) : list str :=
  map label vtk_file_list.

(** Lines 86-93. *)
Definition vtk_file_list : list str :=
  map String.list_ascii_of_string
    ["vtk/aravo_seismic_A_topo_ok_time_ok_utm.vtk";
     "vtk/aravo_seismic_B_topo_ok_time_ok_utm.vtk";
     "vtk/aravo_seismic_C_topo_ok_time_ok_utm.vtk";
     "vtk/aravo_seismic_D_topo_ok_time_ok_utm.vtk";
     "vtk/aravo_seismic_E_topo_ok_time_ok_utm.vtk"].

(** * Proofs *)

(** ** Lists rewritten by a loop *)

Lemma upto_all {A} (f : A -> A) (k : nat) (l : list A) :
  length l <= k -> upto f k l = map f l.
Proof.
  intros H. unfold upto.
  rewrite take_ge, drop_ge by lia. apply app_nil_r.
Qed.

Lemma upto_lookup_next {A} (f : A -> A) (k : nat) (l : list A) :
  upto f k l !! k = l !! k.
Proof.
  unfold upto. destruct (decide (k <= length l)) as [H|H].
  - rewrite lookup_app_r; rewrite length_map, length_take; [|lia].
    replace (k - k `min` length l) with 0 by lia.
    rewrite lookup_drop. f_equal. lia.
  - rewrite take_ge, drop_ge, app_nil_r by lia.
    rewrite list_lookup_fmap.
    rewrite (lookup_ge_None_2 l k) by lia. reflexivity.
Qed.

Lemma upto_step {A} (f : A -> A) (k : nat) (l : list A) (x : A) :
  l !! k = Some x ->
  <[k := f x]> (upto f k l) = upto f (S k) l.
Proof.
  intros H. pose proof (lookup_lt_Some _ _ _ H) as Hk.
  unfold upto.
  rewrite insert_app_r_alt; rewrite length_map, length_take; [|lia].
  replace (k - k `min` length l) with 0 by lia.
  rewrite (drop_S l x k H). simpl.
  rewrite (take_S_r l k x H), map_app. simpl.
  rewrite <- app_assoc. reflexivity.
Qed.

Lemma singleton_list {A} (l : list A) :
  length l = 1 -> exists x, l = [x].
Proof.
  destruct l as [|x [|y l]]; simpl; intros H; try discriminate.
  exists x. reflexivity.
Qed.

Lemma map_const {A B} (y : B) (l : list A) :
  map (fun _ => y) l = replicate (length l) y.
Proof. induction l as [|x l IH]; simpl; [|rewrite IH]; reflexivity. Qed.

Lemma lookup_map {A B} (f : A -> B) (l : list A) (i : nat) :
  map f l !! i = option_map f (l !! i).
Proof.
  revert i. induction l as [|x l IH]; intros [|i]; simpl; try reflexivity.
  apply IH.
Qed.

(** ** Running the callbacks *)

(** Unfolding a callback down to the world it returns. *)
Create HintDb py discriminated.
Create HintDb world discriminated.
#[local] Hint Unfold
  hide_profile hide_DEM hide_CMD
  update_profile_visibility update_DEM_visibility update_CMD_visibility
  set_res_range update_opacity_dem update_opacity_cmd
  Actor_SetVisibility Actor_SetOpacity Actor_set_scalar_range
  setitem on_actor call bind : py.
#[local] Hint Unfold
  with_calls with_visibilityList with_visibilityDEM with_visibilityCMD
  with_actor_profile with_actor_dem with_actor_cmd : world.

Ltac run_py := autounfold with py; simpl.
Ltac same_world :=
  autounfold with world; simpl; rewrite <- ?app_assoc; reflexivity.

(** Sequencing laws used to run the callbacks. *)
Lemma bind_Ok {A B} (m : Py A) (k : A -> Py B) (w w' : World) (a : A) :
  m w = Ok a w' -> bind m k w = k a w'.
Proof. intros H. unfold bind. rewrite H. reflexivity. Qed.

Lemma for_in_app {A} (l1 l2 : list A) (body : A -> Py unit) (w : World) :
  for_in (l1 ++ l2) body w = (for_in l1 body ;;; for_in l2 body) w.
Proof.
  revert w. induction l1 as [|x l1 IH]; intros w; simpl.
  - reflexivity.
  - unfold bind. destruct (body x w) as [[] w1|e w1]; [|reflexivity].
    rewrite IH. reflexivity.
Qed.

Lemma for_range_S (n : nat) (body : nat -> Py unit) (w : World) :
  for_range (S n) body w = (for_range n body ;;; body n) w.
Proof.
  unfold for_range. rewrite seq_S, for_in_app. simpl.
  unfold bind. destruct (for_in (seq 0 n) body w) as [[] w1|e w1]; [|reflexivity].
  destruct (body n w1) as [[] w2|e w2]; reflexivity.
Qed.

Lemma redraws_app (l1 l2 : list Call) :
  redraws (l1 ++ l2) = redraws l1 + redraws l2.
Proof.
  induction l1 as [|c l1 IH]; simpl; [reflexivity|].
  destruct c; simpl; rewrite IH; reflexivity.
Qed.

Lemma redraws_profile_calls (v : bool) (l : list nat) :
  redraws (flat_map (profile_calls v) l) = length l.
Proof. induction l as [|i l IH]; simpl; [|rewrite IH]; reflexivity. Qed.

Lemma redraws_range_calls (r : Q * Q) (l : list nat) :
  redraws (flat_map (range_calls r) l) = 0.
Proof. induction l as [|i l IH]; simpl; [|rewrite IH]; reflexivity. Qed.

Lemma after_profiles_0 (v : bool) (w : World) : after_profiles 0 v w = w.
Proof.
  destruct w. unfold after_profiles. simpl. rewrite app_nil_r. reflexivity.
Qed.

Lemma update_profile_visibility_next (k : nat) (v : bool) (w : World) :
  k < length (visibilityList w) ->
  k < length (actor_profile w) ->
  update_profile_visibility k v (after_profiles k v w)
  = Ok tt (after_profiles (S k) v w).
Proof.
  intros Hv Ha.
  destruct (lookup_lt_is_Some_2 _ _ Hv) as [b Hb].
  destruct (lookup_lt_is_Some_2 _ _ Ha) as [x Hx].
  pose proof (upto_step (fun _ => v) k _ b Hb) as Ev. simpl in Ev.
  pose proof (upto_step (set_visible v) k _ x Hx) as Ea.
  unfold after_profiles at 2. rewrite seq_S, flat_map_app.
  unfold update_profile_visibility, hide_profile, Actor_SetVisibility,
    setitem, on_actor, call, bind, after_profiles. simpl.
  rewrite !upto_lookup_next, Hb. simpl.
  rewrite upto_lookup_next, Hx.
  unfold with_calls, with_actor_profile, with_visibilityList. simpl.
  fold (set_visible v x). rewrite Ev, Ea.
  rewrite <- !app_assoc. reflexivity.
Qed.

Lemma profiles_loop (k : nat) (v : bool) (w : World) :
  k <= length (visibilityList w) ->
  k <= length (actor_profile w) ->
  for_range k (fun i => update_profile_visibility i v) w
  = Ok tt (after_profiles k v w).
Proof.
  induction k as [|k IH]; intros Hv Ha.
  - rewrite after_profiles_0. reflexivity.
  - rewrite for_range_S. rewrite (bind_Ok _ _ _ _ _ (IH ltac:(lia) ltac:(lia))).
    apply update_profile_visibility_next; lia.
Qed.

Lemma after_ranges_0 (clim : Q * Q) (w : World) : after_ranges 0 clim w = w.
Proof.
  destruct w. unfold after_ranges, with_calls, with_actor_profile. simpl.
  rewrite app_nil_r. reflexivity.
Qed.

Lemma ranges_loop (k : nat) (clim : Q * Q) (w : World) :
  k <= length (actor_profile w) ->
  for_range k (fun j => Actor_set_scalar_range (in_actor_profile j) clim) w
  = Ok tt (after_ranges k clim w).
Proof.
  induction k as [|k IH]; intros Ha.
  - rewrite after_ranges_0. reflexivity.
  - rewrite for_range_S. rewrite (bind_Ok _ _ _ _ _ (IH ltac:(lia))).
    destruct (lookup_lt_is_Some_2 (actor_profile w) k ltac:(lia)) as [x Hx].
    pose proof (upto_step (set_range clim) k _ x Hx) as Ea.
    unfold after_ranges at 2. rewrite seq_S, flat_map_app.
    unfold Actor_set_scalar_range, on_actor, call, bind, after_ranges. simpl.
    rewrite upto_lookup_next, Hx.
    unfold with_calls, with_actor_profile. simpl.
    fold (set_range clim x). rewrite Ea.
    rewrite <- !app_assoc. reflexivity.
Qed.

(** The single-actor callbacks on a scene whose list has its first entry. *)
Lemma update_DEM_visibility_run (v b : bool) (bs : list bool) (a : Actor)
    (rest : list Actor) (w : World) :
  visibilityDEM w = b :: bs ->
  actor_dem w = a :: rest ->
  update_DEM_visibility v w
  = Ok tt (with_calls (calls w ++ [dirty "visibilityDEM";
                                   SetVisibility (in_actor_dem 0) v; view_update])
            (with_actor_dem (set_visible v a :: rest)
               (with_visibilityDEM (v :: bs) w))).
Proof.
  intros Hv Ha. run_py. rewrite Hv. simpl. rewrite Ha. same_world.
Qed.

Lemma update_CMD_visibility_run (v b : bool) (bs : list bool) (a : Actor)
    (rest : list Actor) (w : World) :
  visibilityCMD w = b :: bs ->
  actor_cmd w = a :: rest ->
  update_CMD_visibility v w
  = Ok tt (with_calls (calls w ++ [dirty "visibilityCMD";
                                   SetVisibility (in_actor_cmd 0) v; view_update])
            (with_actor_cmd (set_visible v a :: rest)
               (with_visibilityCMD (v :: bs) w))).
Proof.
  intros Hv Ha. run_py. rewrite Hv. simpl. rewrite Ha. same_world.
Qed.

Lemma update_opacity_dem_run (v : Q) (a : Actor) (rest : list Actor) (w : World) :
  actor_dem w = a :: rest ->
  update_opacity_dem v w
  = Ok tt (with_calls (calls w ++ [SetOpacity (in_actor_dem 0) v; view_update])
            (with_actor_dem (set_opacity v a :: rest) w)).
Proof.
  intros Ha. run_py. rewrite Ha. same_world.
Qed.

Lemma update_opacity_cmd_run (v : Q) (a : Actor) (rest : list Actor) (w : World) :
  actor_cmd w = a :: rest ->
  update_opacity_cmd v w
  = Ok tt (with_calls (calls w ++ [SetOpacity (in_actor_cmd 0) v; view_update])
            (with_actor_cmd (set_opacity v a :: rest) w)).
Proof.
  intros Ha. run_py. rewrite Ha. same_world.
Qed.

Lemma set_res_range_run (r : Q * Q) (a : Actor) (rest : list Actor) (w : World) :
  actor_cmd w = a :: rest ->
  set_res_range r w
  = Ok tt (with_calls (calls w ++ [set_scalar_range (in_actor_cmd 0) r; view_update])
            (with_actor_cmd (set_range r a :: rest) w)).
Proof.
  intros Ha. run_py. rewrite Ha. same_world.
Qed.

Lemma set_vel_range_run (r : Q * Q) (w : World) :
  length (actor_profile w) = len_mesh w ->
  set_vel_range r w
  = Ok tt (with_calls (calls w ++ flat_map (range_calls r) (seq 0 (len_mesh w))
                         ++ [view_update])
            (with_actor_profile (map (set_range r) (actor_profile w)) w)).
Proof.
  intros Ha. unfold set_vel_range, get_len_mesh, bind.
  rewrite ranges_loop by lia.
  unfold call, after_ranges, with_calls, with_actor_profile. simpl.
  rewrite upto_all by lia. rewrite <- app_assoc. reflexivity.
Qed.

Lemma update_profile_visibility_run (i : nat) (v b : bool) (x : Actor) (w : World) :
  visibilityList w !! i = Some b ->
  actor_profile w !! i = Some x ->
  update_profile_visibility i v w
  = Ok tt (with_calls (calls w ++ profile_calls v i)
            (with_actor_profile (<[i := set_visible v x]> (actor_profile w))
               (with_visibilityList (<[i := v]> (visibilityList w)) w))).
Proof.
  intros Hb Hx. run_py. rewrite Hb. simpl. rewrite Hx. same_world.
Qed.

(** A group toggle of the profiles, in closed form. *)
Lemma visibility_change_profiles (v : bool) (w : World) :
  length (visibilityList w) = len_mesh w ->
  length (actor_profile w) = len_mesh w ->
  visibility_change (mkEvent "1" v) w
  = Ok tt (with_calls (calls w ++ flat_map (profile_calls v) (seq 0 (len_mesh w))
                         ++ [view_update])
            (with_actor_profile (map (set_visible v) (actor_profile w))
               (with_visibilityList (replicate (len_mesh w) v) w))).
Proof.
  intros Hv Ha. unfold visibility_change. simpl.
  unfold bind at 1. unfold bind at 1. unfold get_len_mesh at 1.
  rewrite profiles_loop by lia.
  unfold call, after_profiles, with_calls, with_actor_profile,
    with_visibilityList. simpl.
  rewrite !upto_all by lia. rewrite <- app_assoc.
  rewrite <- Hv, map_const. reflexivity.
Qed.

(** A group toggle of the images and maps, in closed form. *)
Lemma visibility_change_maps (v bd bc : bool) (bsd bsc : list bool)
    (ad ac : Actor) (restd restc : list Actor) (w : World) :
  visibilityDEM w = bd :: bsd -> actor_dem w = ad :: restd ->
  visibilityCMD w = bc :: bsc -> actor_cmd w = ac :: restc ->
  visibility_change (mkEvent "2" v) w
  = Ok tt (mkWorld (len_mesh w) (visibilityList w) (v :: bsd) (v :: bsc)
             (actor_profile w) (set_visible v ad :: restd)
             (set_visible v ac :: restc)
             (calls w ++ maps_calls v ++ [view_update])).
Proof.
  intros Hvd Had Hvc Hac. unfold visibility_change. simpl.
  unfold bind at 1. unfold bind at 1.
  rewrite (update_DEM_visibility_run v bd bsd ad restd w Hvd Had).
  cbv beta iota.
  rewrite (update_CMD_visibility_run v bc bsc ac restc) by assumption.
  unfold call, with_calls, with_actor_cmd, with_actor_dem, with_visibilityCMD,
    with_visibilityDEM, maps_calls. simpl.
  rewrite <- !app_assoc. reflexivity.
Qed.


(** ** Scenes as the script builds them *)

Section OnAScene.

Variable w : World.
Hypothesis scene : scene_ok w.

Lemma scene_profiles :
  length (visibilityList w) = len_mesh w /\
  length (actor_profile w) = len_mesh w.
Proof. destruct scene as (H1 & H2 & _). split; assumption. Qed.

Lemma scene_dem : exists b a, visibilityDEM w = [b] /\ actor_dem w = [a].
Proof.
  destruct scene as (_ & _ & Hv & Ha & _).
  destruct (singleton_list _ Hv) as [b Eb].
  destruct (singleton_list _ Ha) as [a Ea].
  exists b, a. split; assumption.
Qed.

Lemma scene_cmd : exists b a, visibilityCMD w = [b] /\ actor_cmd w = [a].
Proof.
  destruct scene as (_ & _ & _ & _ & Hv & Ha).
  destruct (singleton_list _ Hv) as [b Eb].
  destruct (singleton_list _ Ha) as [a Ea].
  exists b, a. split; assumption.
Qed.

(** *** Group toggles *)

(** C1, as the code has it: a [visibility_change] event with group id "1"
    applies the visibility to every profile layer in registry order
    (index 0, 1, ...), and one with id "2" to the aerial-image layer and
    then the CMD layer; each layer's update is followed by its own redraw
    signal and one more redraw signal follows the whole group, so a group
    of [n] layers emits [n + 1] redraw signals. *)
Theorem visibility_change_redraws_each_layer_and_once_more (v : bool) :
  (exists w',
      visibility_change (mkEvent "1" v) w = Ok tt w' /\
      visibilityList w' = replicate (len_mesh w) v /\
      actor_profile w' = map (set_visible v) (actor_profile w) /\
      calls w' = calls w ++ flat_map (profile_calls v) (seq 0 (len_mesh w))
                         ++ [view_update] /\
      redraws (calls w') = redraws (calls w) + (len_mesh w + 1)) /\
  (exists w',
      visibility_change (mkEvent "2" v) w = Ok tt w' /\
      visibilityDEM w' = [v] /\ visibilityCMD w' = [v] /\
      actor_dem w' = map (set_visible v) (actor_dem w) /\
      actor_cmd w' = map (set_visible v) (actor_cmd w) /\
      calls w' = calls w ++ maps_calls v ++ [view_update] /\
      redraws (calls w') = redraws (calls w) + (2 + 1)).
Proof.
  destruct scene_profiles as (Hvl & Hap).
  destruct scene_dem as (bd & ad & Ebd & Ead).
  destruct scene_cmd as (bc & ac & Ebc & Eac).
  split.
  - eexists. split; [apply visibility_change_profiles; assumption|].
    simpl. repeat split.
    rewrite !redraws_app, redraws_profile_calls, length_seq. reflexivity.
  - eexists. split; [eapply visibility_change_maps; eassumption|].
    simpl. rewrite Ead, Eac. repeat split.
    rewrite !redraws_app. reflexivity.
Qed.

(** C8: a group toggle touches the layers of its group only.  On a scene
    as the script builds it, [visibility_change] with group id "1" sets
    every profile visible or hidden as asked, keeps each profile's opacity
    and color range, and leaves the DEM and CMD actors and their visibility
    entries exactly as they were; with group id "2" the profile actors and
    their visibility entries are left exactly as they were. *)
Theorem visibility_change_frame (v : bool) :
  (exists w',
      visibility_change (mkEvent "1" v) w = Ok tt w' /\
      Forall (fun a => Visibility a = v) (actor_profile w') /\
      length (actor_profile w') = length (actor_profile w) /\
      map Opacity (actor_profile w') = map Opacity (actor_profile w) /\
      map scalar_range (actor_profile w') = map scalar_range (actor_profile w) /\
      visibilityList w' = replicate (len_mesh w) v /\
      actor_dem w' = actor_dem w /\ actor_cmd w' = actor_cmd w /\
      visibilityDEM w' = visibilityDEM w /\ visibilityCMD w' = visibilityCMD w /\
      len_mesh w' = len_mesh w) /\
  (exists w',
      visibility_change (mkEvent "2" v) w = Ok tt w' /\
      actor_profile w' = actor_profile w /\
      visibilityList w' = visibilityList w /\
      len_mesh w' = len_mesh w).
Proof.
  destruct scene_profiles as (Hvl & Hap).
  destruct scene_dem as (bd & ad & Ebd & Ead).
  destruct scene_cmd as (bc & ac & Ebc & Eac).
  split.
  - eexists. split; [apply visibility_change_profiles; assumption|].
    simpl. repeat split.
    + apply List.Forall_forall. intros a Ha. apply in_map_iff in Ha.
      destruct Ha as (x & <- & _). reflexivity.
    + apply length_map.
    + rewrite map_map. reflexivity.
    + rewrite map_map. reflexivity.
  - eexists. split; [eapply visibility_change_maps; eassumption|].
    simpl. repeat split.
Qed.

(** C9: one [visibility_change] event with group id "2" ("Images and
    maps") gives the aerial-image (DEM) layer and the CMD layer the same
    requested visibility, in the actors and in the mirrored visibility
    lists. *)
Theorem visibility_change_images_and_maps (v : bool) :
  exists w',
    visibility_change (mkEvent "2" v) w = Ok tt w' /\
    map Visibility (actor_dem w') = [v] /\
    map Visibility (actor_cmd w') = [v] /\
    visibilityDEM w' = [v] /\
    visibilityCMD w' = [v].
Proof.
  destruct scene_dem as (bd & ad & Ebd & Ead).
  destruct scene_cmd as (bc & ac & Ebc & Eac).
  eexists. split; [eapply visibility_change_maps; eassumption|].
  simpl. repeat split.
Qed.

(** *** Setters *)

(** C2, as the code has it: every setter callback (profile, DEM and CMD
    visibility, DEM and CMD opacity, velocity and resistivity color range)
    emits exactly one redraw signal on every call, whatever the value and
    whether or not the layer already holds it. *)
Theorem every_setter_call_emits_one_redraw :
  (forall i v, i < len_mesh w ->
     exists w', update_profile_visibility i v w = Ok tt w' /\
                redraws (calls w') = redraws (calls w) + 1) /\
  (forall v, exists w', update_DEM_visibility v w = Ok tt w' /\
                        redraws (calls w') = redraws (calls w) + 1) /\
  (forall v, exists w', update_CMD_visibility v w = Ok tt w' /\
                        redraws (calls w') = redraws (calls w) + 1) /\
  (forall o, exists w', update_opacity_dem o w = Ok tt w' /\
                        redraws (calls w') = redraws (calls w) + 1) /\
  (forall o, exists w', update_opacity_cmd o w = Ok tt w' /\
                        redraws (calls w') = redraws (calls w) + 1) /\
  (forall r, exists w', set_vel_range r w = Ok tt w' /\
                        redraws (calls w') = redraws (calls w) + 1) /\
  (forall r, exists w', set_res_range r w = Ok tt w' /\
                        redraws (calls w') = redraws (calls w) + 1).
Proof.
  destruct scene_profiles as (Hvl & Hap).
  destruct scene_dem as (bd & ad & Ebd & Ead).
  destruct scene_cmd as (bc & ac & Ebc & Eac).
  repeat split.
  - intros i v Hi.
    destruct (lookup_lt_is_Some_2 (visibilityList w) i ltac:(lia)) as [b Hb].
    destruct (lookup_lt_is_Some_2 (actor_profile w) i ltac:(lia)) as [x Hx].
    eexists. split; [eapply update_profile_visibility_run; eassumption|].
    simpl. rewrite redraws_app. reflexivity.
  - intros v. eexists. split; [eapply update_DEM_visibility_run; eassumption|].
    simpl. rewrite redraws_app. reflexivity.
  - intros v. eexists. split; [eapply update_CMD_visibility_run; eassumption|].
    simpl. rewrite redraws_app. reflexivity.
  - intros o. eexists. split; [eapply update_opacity_dem_run; eassumption|].
    simpl. rewrite redraws_app. reflexivity.
  - intros o. eexists. split; [eapply update_opacity_cmd_run; eassumption|].
    simpl. rewrite redraws_app. reflexivity.
  - intros r. eexists. split; [eapply set_vel_range_run; eassumption|].
    simpl. rewrite !redraws_app, redraws_range_calls. reflexivity.
  - intros r. eexists. split; [eapply set_res_range_run; eassumption|].
    simpl. rewrite redraws_app. reflexivity.
Qed.

(** C5, as the code has it: [set_res_range] checks nothing.  For every
    pair, also one whose minimum exceeds its maximum, the call returns
    without an error, and the pair replaces the CMD layer's color range;
    visibility and opacity are kept and one redraw signal is emitted. *)
Theorem set_res_range_accepts_every_pair (r : Q * Q) :
  exists w',
    set_res_range r w = Ok tt w' /\
    map scalar_range (actor_cmd w') = [r] /\
    map Visibility (actor_cmd w') = map Visibility (actor_cmd w) /\
    map Opacity (actor_cmd w') = map Opacity (actor_cmd w) /\
    redraws (calls w') = redraws (calls w) + 1.
Proof.
  destruct scene_cmd as (bc & ac & Ebc & Eac).
  eexists. split; [eapply set_res_range_run; eassumption|].
  simpl. rewrite Eac, redraws_app. repeat split.
Qed.

(** C10: after [set_vel_range] every profile actor has the scalar range
    that was passed, so any two profile actors have the same one. *)
Theorem set_vel_range_uniform (r : Q * Q) :
  exists w',
    set_vel_range r w = Ok tt w' /\
    length (actor_profile w') = len_mesh w /\
    Forall (fun a => scalar_range a = r) (actor_profile w') /\
    (forall i j a b,
        actor_profile w' !! i = Some a ->
        actor_profile w' !! j = Some b ->
        scalar_range a = scalar_range b).
Proof.
  destruct scene_profiles as (Hvl & Hap).
  eexists. split; [apply set_vel_range_run; assumption|].
  simpl.
  assert (Hall : Forall (fun a => scalar_range a = r)
                   (map (set_range r) (actor_profile w))).
  { apply List.Forall_forall. intros a Ha. apply in_map_iff in Ha.
    destruct Ha as (x & <- & _). reflexivity. }
  split; [rewrite length_map; assumption|]. split; [exact Hall|].
  intros i j a b Hi Hj.
  rewrite Forall_lookup in Hall.
  rewrite (Hall i a Hi), (Hall j b Hj). reflexivity.
Qed.

End OnAScene.

(** ** The claims on the script's scene and on the spec's scenario *)

Lemma scene_ok_script_scene : scene_ok script_scene.
Proof. repeat split. Qed.

Lemma scene_ok_sceneAB : scene_ok sceneAB.
Proof. repeat split. Qed.

(** C1 on the script's scene: the five profiles are hidden in order and six
    redraw signals are emitted. *)
Lemma visibility_change_redraws_on_script_scene :
  scene_ok script_scene /\
  (exists w',
      visibility_change (mkEvent "1" false) script_scene = Ok tt w' /\
      visibilityList w' = replicate (len_mesh script_scene) false /\
      actor_profile w' = map (set_visible false) (actor_profile script_scene) /\
      calls w' = calls script_scene
                   ++ flat_map (profile_calls false) (seq 0 (len_mesh script_scene))
                   ++ [view_update] /\
      redraws (calls w') = redraws (calls script_scene) + (len_mesh script_scene + 1)) /\
  (exists w',
      visibility_change (mkEvent "2" false) script_scene = Ok tt w' /\
      visibilityDEM w' = [false] /\ visibilityCMD w' = [false] /\
      actor_dem w' = map (set_visible false) (actor_dem script_scene) /\
      actor_cmd w' = map (set_visible false) (actor_cmd script_scene) /\
      calls w' = calls script_scene ++ maps_calls false ++ [view_update] /\
      redraws (calls w') = redraws (calls script_scene) + (2 + 1)).
Proof.
  split; [repeat split|].
  apply (visibility_change_redraws_each_layer_and_once_more script_scene).
  repeat split.
Defined.

(** C1 as stated fails: on the script's scene, hiding the group of the five
    profiles emits six redraw signals (one per profile and one for the
    group) and hiding the "Images and maps" group emits three, not exactly
    one. *)
Lemma visibility_change_not_a_single_redraw :
  redraws (calls script_scene) = 0 /\
  redraws (calls (the_world (visibility_change (mkEvent "1" false) script_scene))) = 6 /\
  redraws (calls (the_world (visibility_change (mkEvent "2" false) script_scene))) = 3 /\
  redraws (calls (the_world (visibility_change (mkEvent "1" false) script_scene))) <> 1 /\
  redraws (calls (the_world (visibility_change (mkEvent "2" false) script_scene))) <> 1.
Proof. repeat split; discriminate. Qed.

(** C8 on the spec's scenario: registry ["profA", "profB", "dem", "cmd"],
    the profile group switched off. *)
Lemma visibility_change_frame_on_sceneAB :
  scene_ok sceneAB /\
  (exists w',
      visibility_change (mkEvent "1" false) sceneAB = Ok tt w' /\
      Forall (fun a => Visibility a = false) (actor_profile w') /\
      length (actor_profile w') = length (actor_profile sceneAB) /\
      map Opacity (actor_profile w') = map Opacity (actor_profile sceneAB) /\
      map scalar_range (actor_profile w')
      = map scalar_range (actor_profile sceneAB) /\
      visibilityList w' = replicate (len_mesh sceneAB) false /\
      actor_dem w' = actor_dem sceneAB /\ actor_cmd w' = actor_cmd sceneAB /\
      visibilityDEM w' = visibilityDEM sceneAB /\
      visibilityCMD w' = visibilityCMD sceneAB /\
      len_mesh w' = len_mesh sceneAB) /\
  (exists w',
      visibility_change (mkEvent "2" false) sceneAB = Ok tt w' /\
      actor_profile w' = actor_profile sceneAB /\
      visibilityList w' = visibilityList sceneAB /\
      len_mesh w' = len_mesh sceneAB).
Proof.
  split; [repeat split|].
  apply (visibility_change_frame sceneAB). repeat split.
Defined.

Example visibility_change_sceneAB_profiles_off :
  the_world (visibility_change (mkEvent "1" false) sceneAB)
  = mkWorld 2 [false; false] [true] [true]
      [mkActor false 1 (1500, 3000)%Q; mkActor false 1 (1200, 4200)%Q]
      [shown (7 # 10) (2000, 2500)%Q] [shown 1 (10, 500)%Q]
      (profile_calls false 0 ++ profile_calls false 1 ++ [view_update]).
Proof. reflexivity. Qed.

(** C9 on the script's scene. *)
Lemma visibility_change_images_and_maps_on_script_scene :
  scene_ok script_scene /\
  exists w',
    visibility_change (mkEvent "2" false) script_scene = Ok tt w' /\
    map Visibility (actor_dem w') = [false] /\
    map Visibility (actor_cmd w') = [false] /\
    visibilityDEM w' = [false] /\
    visibilityCMD w' = [false].
Proof.
  split; [repeat split|].
  apply (visibility_change_images_and_maps script_scene). repeat split.
Defined.

(** C2 on the script's scene. *)
Lemma every_setter_call_emits_one_redraw_on_script_scene :
  scene_ok script_scene /\
  (forall i v, i < len_mesh script_scene ->
     exists w', update_profile_visibility i v script_scene = Ok tt w' /\
                redraws (calls w') = redraws (calls script_scene) + 1) /\
  (forall v, exists w', update_DEM_visibility v script_scene = Ok tt w' /\
                        redraws (calls w') = redraws (calls script_scene) + 1) /\
  (forall v, exists w', update_CMD_visibility v script_scene = Ok tt w' /\
                        redraws (calls w') = redraws (calls script_scene) + 1) /\
  (forall o, exists w', update_opacity_dem o script_scene = Ok tt w' /\
                        redraws (calls w') = redraws (calls script_scene) + 1) /\
  (forall o, exists w', update_opacity_cmd o script_scene = Ok tt w' /\
                        redraws (calls w') = redraws (calls script_scene) + 1) /\
  (forall r, exists w', set_vel_range r script_scene = Ok tt w' /\
                        redraws (calls w') = redraws (calls script_scene) + 1) /\
  (forall r, exists w', set_res_range r script_scene = Ok tt w' /\
                        redraws (calls w') = redraws (calls script_scene) + 1).
Proof.
  split; [repeat split|].
  apply (every_setter_call_emits_one_redraw script_scene). repeat split.
Defined.

(** C2 as stated fails: in the script's scene the first profile and the DEM
    layer are visible, the DEM layer has opacity 0.7 and the CMD layer has
    color range (10, 500); setting each to the value it already holds still
    emits a redraw signal. *)
Lemma setters_redraw_on_unchanged_value :
  redraws (calls script_scene) = 0 /\
  map Visibility (actor_profile script_scene) !! 0 = Some true /\
  redraws (calls (the_world (update_profile_visibility 0 true script_scene))) = 1 /\
  map Visibility (actor_dem script_scene) = [true] /\
  redraws (calls (the_world (update_DEM_visibility true script_scene))) = 1 /\
  map Opacity (actor_dem script_scene) = [7 # 10] /\
  redraws (calls (the_world (update_opacity_dem (7 # 10) script_scene))) = 1 /\
  map scalar_range (actor_cmd script_scene) = [(10, 500)%Q] /\
  redraws (calls (the_world (set_res_range (10, 500)%Q script_scene))) = 1 /\
  1 <> 0.
Proof. repeat split. discriminate. Qed.

(** C5 on the script's scene, with an inverted pair. *)
Lemma set_res_range_accepts_every_pair_on_script_scene :
  scene_ok script_scene /\
  exists w',
    set_res_range (10, 5)%Q script_scene = Ok tt w' /\
    map scalar_range (actor_cmd w') = [(10, 5)%Q] /\
    map Visibility (actor_cmd w') = map Visibility (actor_cmd script_scene) /\
    map Opacity (actor_cmd w') = map Opacity (actor_cmd script_scene) /\
    redraws (calls w') = redraws (calls script_scene) + 1.
Proof.
  split; [repeat split|].
  apply (set_res_range_accepts_every_pair script_scene). repeat split.
Defined.

(** C5 as stated fails: on the script's scene, whose CMD layer has color
    range (10, 500), the inverted range (10, 5) raises nothing and overwrites
    the previous range. *)
Lemma set_res_range_inverted_range_is_stored :
  (5 < 10)%Q /\
  map scalar_range (actor_cmd script_scene) = [(10, 500)%Q] /\
  exists w',
    set_res_range (10, 5)%Q script_scene = Ok tt w' /\
    map scalar_range (actor_cmd w') = [(10, 5)%Q] /\
    map scalar_range (actor_cmd w') <> map scalar_range (actor_cmd script_scene).
Proof.
  split; [reflexivity|]. split; [reflexivity|].
  eexists. split; [reflexivity|]. split; [reflexivity|].
  simpl. discriminate.
Qed.

(** C10 on the script's scene, whose profiles start with different ranges. *)
Lemma set_vel_range_uniform_on_script_scene :
  scene_ok script_scene /\
  exists w',
    set_vel_range (1600, 2800)%Q script_scene = Ok tt w' /\
    length (actor_profile w') = len_mesh script_scene /\
    Forall (fun a => scalar_range a = (1600, 2800)%Q) (actor_profile w') /\
    (forall i j a b,
        actor_profile w' !! i = Some a ->
        actor_profile w' !! j = Some b ->
        scalar_range a = scalar_range b).
Proof.
  split; [repeat split|].
  apply (set_vel_range_uniform script_scene). repeat split.
Defined.

(** ** Opacity *)

Lemma clamp01_spec (o : Q) :
  (0 <= clamp01 o <= 1)%Q /\
  ((o < 0)%Q -> clamp01 o = 0%Q) /\
  ((1 < o)%Q -> clamp01 o = 1%Q) /\
  ((0 <= o <= 1)%Q -> clamp01 o = o).
Proof.
  unfold clamp01.
  destruct (Qlt_le_dec o 0) as [H0|H0]; [|destruct (Qlt_le_dec 1 o) as [H1|H1]];
    repeat split; intros; try reflexivity; try lra.
Qed.

(** C7: the opacity callbacks never fail because of the opacity value.
    Whatever rational is passed, the call raises only when the actor list has
    no entry to look up ([IndexError]); otherwise it returns and the layer's
    opacity is the value clamped to [0,1]: 0 below 0, 1 above 1, the value
    itself in between.  Visibility and color range are kept. *)
Theorem update_opacity_clamps_never_rejects (o : Q) (w : World) :
  ((actor_dem w = [] /\ update_opacity_dem o w = Raise IndexError w) \/
   (exists a rest w',
       actor_dem w = a :: rest /\
       update_opacity_dem o w = Ok tt w' /\
       actor_dem w' = mkActor (Visibility a) (clamp01 o) (scalar_range a) :: rest)) /\
  ((actor_cmd w = [] /\ update_opacity_cmd o w = Raise IndexError w) \/
   (exists a rest w',
       actor_cmd w = a :: rest /\
       update_opacity_cmd o w = Ok tt w' /\
       actor_cmd w' = mkActor (Visibility a) (clamp01 o) (scalar_range a) :: rest)) /\
  (0 <= clamp01 o <= 1)%Q /\
  ((o < 0)%Q -> clamp01 o = 0%Q) /\
  ((1 < o)%Q -> clamp01 o = 1%Q) /\
  ((0 <= o <= 1)%Q -> clamp01 o = o).
Proof.
  split; [|split; [|apply clamp01_spec]].
  - destruct (actor_dem w) as [|a rest] eqn:E.
    + left. split; [reflexivity|]. run_py. rewrite E. reflexivity.
    + right. exists a, rest. eexists. split; [reflexivity|].
      split; [apply (update_opacity_dem_run o a rest w E)|]. reflexivity.
  - destruct (actor_cmd w) as [|a rest] eqn:E.
    + left. split; [reflexivity|]. run_py. rewrite E. reflexivity.
    + right. exists a, rest. eexists. split; [reflexivity|].
      split; [apply (update_opacity_cmd_run o a rest w E)|]. reflexivity.
Qed.

(** The slider's range and two values beyond it, on the script's scene. *)
Example update_opacity_cmd_values :
  map Opacity (actor_cmd (the_world (update_opacity_cmd (3 # 10) script_scene))) = [3 # 10] /\
  map Opacity (actor_cmd (the_world (update_opacity_cmd 2 script_scene))) = [1%Q] /\
  map Opacity (actor_dem (the_world (update_opacity_dem (- (1 # 2)) script_scene))) = [0%Q].
Proof. repeat split. Qed.

(** ** Resampling *)

Lemma combine_columns (l : list Row) :
  combine (map col0 l) (map col1 l) = map xy l.
Proof. induction l as [|p l IH]; simpl; [|rewrite IH]; reflexivity. Qed.

(** The scan returns an index of the scanned list whose entry is at least as
    near as every other one. *)
Lemma nearest_from_min (t : Point) (l pre : list Point) (best : nat) (pb : Point) :
  pre !! best = Some pb ->
  (forall j q, pre !! j = Some q -> (dist2 pb t <= dist2 q t)%Q) ->
  exists p,
    (pre ++ l) !! nearest_from t best (dist2 pb t) (length pre) l = Some p /\
    (forall j q, (pre ++ l) !! j = Some q -> (dist2 p t <= dist2 q t)%Q).
Proof.
  revert pre best pb. induction l as [|x l IH]; intros pre best pb Hb Hmin.
  - simpl. rewrite app_nil_r. exists pb. split; assumption.
  - simpl. destruct (Qlt_le_dec (dist2 x t) (dist2 pb t)) as [Hlt|Hle].
    + destruct (IH (pre ++ [x]) (length pre) x) as (p & Hp & Hall).
      * rewrite lookup_app_r by lia.
        replace (length pre - length pre) with 0 by lia. reflexivity.
      * intros j q Hj. apply lookup_app_Some in Hj.
        destruct Hj as [Hj|[_ Hj]].
        -- apply Qle_trans with (dist2 pb t); [apply Qlt_le_weak; exact Hlt|].
           exact (Hmin j q Hj).
        -- destruct (j - length pre) as [|n]; simpl in Hj; [|destruct n; discriminate].
           injection Hj as <-. apply Qle_refl.
      * rewrite length_app in Hp. simpl in Hp.
        replace (length pre + 1) with (S (length pre)) in Hp by lia.
        rewrite <- app_assoc in Hp, Hall. simpl in Hp, Hall.
        exists p. split; assumption.
    + destruct (IH (pre ++ [x]) best pb) as (p & Hp & Hall).
      * apply lookup_app_l_Some. exact Hb.
      * intros j q Hj. apply lookup_app_Some in Hj.
        destruct Hj as [Hj|[_ Hj]].
        -- exact (Hmin j q Hj).
        -- destruct (j - length pre) as [|n]; simpl in Hj; [|destruct n; discriminate].
           injection Hj as <-. exact Hle.
      * rewrite length_app in Hp. simpl in Hp.
        replace (length pre + 1) with (S (length pre)) in Hp by lia.
        rewrite <- app_assoc in Hp, Hall. simpl in Hp, Hall.
        exists p. split; assumption.
Qed.

Lemma nearest_min (t : Point) (pts : list Point) :
  pts <> [] ->
  exists p,
    pts !! nearest pts t = Some p /\
    (forall j q, pts !! j = Some q -> (dist2 p t <= dist2 q t)%Q).
Proof.
  destruct pts as [|x l]; [congruence|]. intros _.
  unfold nearest.
  destruct (nearest_from_min t l [x] 0 x) as (p & Hp & Hall).
  - reflexivity.
  - intros [|j] q Hj; simpl in Hj; [|discriminate].
    injection Hj as <-. apply Qle_refl.
  - exists p. split; assumption.
Qed.

(** C3: the resampling raises [InvalidInputError] exactly when there is no
    source point or when the source points and the source values differ in
    number; on every other input it returns a sequence of values. *)
Theorem cmd_interp_raises_iff (xy_cmd : list Row) (array_cmd : list Q)
    (xy_dem : list Row) :
  (cmd_interp xy_cmd array_cmd xy_dem = inl InvalidInputError <->
   (xy_cmd = [] \/ length xy_cmd <> length array_cmd)) /\
  (forall e, cmd_interp xy_cmd array_cmd xy_dem = inl e -> e = InvalidInputError) /\
  (~ (xy_cmd = [] \/ length xy_cmd <> length array_cmd) ->
   exists out, cmd_interp xy_cmd array_cmd xy_dem = inr out).
Proof.
  unfold cmd_interp. rewrite combine_columns.
  destruct xy_cmd as [|p l]; simpl.
  - repeat split.
    + intros _. left. reflexivity.
    + intros e He. congruence.
    + intros H. exfalso. apply H. left. reflexivity.
  - rewrite length_map.
    destruct (decide (S (length l) = length array_cmd)) as [E|E]; simpl.
    + repeat split.
      * discriminate.
      * intros [H|H]; [discriminate | contradiction].
      * intros e He. discriminate.
      * intros _. eexists. reflexivity.
    + repeat split.
      * intros _. right. exact E.
      * intros e He. congruence.
      * intros H. exfalso. apply H. right. exact E.
Qed.

(** C4: with at least one source point and as many source values as source
    points, the resampling returns one value per target point; every
    returned value is one of the source values, namely the value of a source
    point that no other source point beats in Euclidean distance to the
    target point. *)
Theorem cmd_interp_nearest (xy_cmd : list Row) (array_cmd : list Q)
    (xy_dem : list Row) :
  xy_cmd <> [] ->
  length xy_cmd = length array_cmd ->
  exists out,
    cmd_interp xy_cmd array_cmd xy_dem = inr out /\
    length out = length xy_dem /\
    Forall (fun v => In v array_cmd) out /\
    (forall k t, xy_dem !! k = Some t ->
       exists i p v,
         xy_cmd !! i = Some p /\
         array_cmd !! i = Some v /\
         out !! k = Some v /\
         (forall j q, xy_cmd !! j = Some q ->
            (dist2 (xy p) (xy t) <= dist2 (xy q) (xy t))%Q)).
Proof.
  intros Hne Hlen.
  assert (Hpts : map xy xy_cmd <> []) by (destruct xy_cmd; [congruence | discriminate]).
  assert (Hpick : forall t : Row,
             exists i p v,
               xy_cmd !! i = Some p /\ array_cmd !! i = Some v /\
               default 0%Q (array_cmd !! nearest (map xy xy_cmd) (xy t)) = v /\
               (forall j q, xy_cmd !! j = Some q ->
                  (dist2 (xy p) (xy t) <= dist2 (xy q) (xy t))%Q)).
  { intros t. destruct (nearest_min (xy t) (map xy xy_cmd) Hpts) as (p' & Hp' & Hall).
    rewrite lookup_map in Hp'.
    destruct (xy_cmd !! nearest (map xy xy_cmd) (xy t)) as [p|] eqn:Ep;
      simpl in Hp'; [|discriminate].
    injection Hp' as <-.
    destruct (lookup_lt_is_Some_2 array_cmd (nearest (map xy xy_cmd) (xy t)))
      as [v Hv].
    { rewrite <- Hlen. eapply lookup_lt_Some. exact Ep. }
    exists (nearest (map xy xy_cmd) (xy t)), p, v.
    split; [exact Ep|]. split; [exact Hv|]. split; [rewrite Hv; reflexivity|].
    intros j q Hq. apply (Hall j (xy q)).
    rewrite lookup_map, Hq. reflexivity. }
  unfold cmd_interp. rewrite !combine_columns.
  destruct xy_cmd as [|p0 l0] eqn:Exy; [congruence|]. rewrite <- Exy in *.
  assert (Einit : NearestNDInterpolator_init (map xy xy_cmd) array_cmd
                  = inr (mkInterp (map xy xy_cmd) array_cmd)).
  { rewrite Exy. simpl. rewrite length_map.
    rewrite Exy in Hlen. simpl in Hlen.
    destruct (decide (S (length l0) = length array_cmd)); [reflexivity|contradiction]. }
  rewrite Einit. eexists. split; [reflexivity|].
  unfold NearestNDInterpolator_call. simpl. rewrite combine_columns.
  split; [rewrite !length_map; reflexivity|]. split.
  - apply List.Forall_forall. intros v Hv.
    rewrite map_map in Hv. apply in_map_iff in Hv. destruct Hv as (t & <- & _).
    destruct (Hpick t) as (i & p & v & _ & Hv & -> & _).
    apply list_elem_of_In. eapply list_elem_of_lookup_2. exact Hv.
  - intros k t Hk.
    destruct (Hpick t) as (i & p & v & Hp & Hv & Hd & Hall).
    exists i, p, v. repeat split; try assumption.
    rewrite map_map, lookup_map, Hk. simpl. rewrite Hd. reflexivity.
Qed.

(** C4 on the spec's scenario: sources (0,0) and (10,0) with values 5 and
    50, targets (1,0) and (9,0). *)
Lemma cmd_interp_nearest_scenario :
  [(0, 0, 0); (10, 0, 0)]%Q <> [] /\
  length [(0, 0, 0); (10, 0, 0)]%Q = length [5; 50]%Q /\
  exists out,
    cmd_interp [(0, 0, 0); (10, 0, 0)]%Q [5; 50]%Q [(1, 0, 7); (9, 0, 7)]%Q
    = inr out /\
    length out = length [(1, 0, 7); (9, 0, 7)]%Q /\
    Forall (fun v => In v [5; 50]%Q) out /\
    (forall k t, [(1, 0, 7); (9, 0, 7)]%Q !! k = Some t ->
       exists i p v,
         [(0, 0, 0); (10, 0, 0)]%Q !! i = Some p /\
         [5; 50]%Q !! i = Some v /\
         out !! k = Some v /\
         (forall j q, [(0, 0, 0); (10, 0, 0)]%Q !! j = Some q ->
            (dist2 (xy p) (xy t) <= dist2 (xy q) (xy t))%Q)).
Proof.
  split; [discriminate|]. split; [reflexivity|].
  apply (cmd_interp_nearest [(0, 0, 0); (10, 0, 0)]%Q [5; 50]%Q
           [(1, 0, 7); (9, 0, 7)]%Q); [discriminate | reflexivity].
Defined.

Example cmd_interp_scenario_values :
  cmd_interp [(0, 0, 0); (10, 0, 0)]%Q [5; 50]%Q [(1, 0, 7); (9, 0, 7)]%Q
  = inr [5; 50]%Q.
Proof. reflexivity. Qed.

(** On a tie the lowest source index is taken. *)
Example cmd_interp_tie :
  cmd_interp [(0, 0, 0); (2, 0, 0)]%Q [5; 50]%Q [(1, 0, 0)]%Q = inr [5]%Q.
Proof. reflexivity. Qed.

(** ** Draping *)

(** C6: draping keeps one vertex per vertex of the elevation mesh; a vertex
    whose elevation exceeds [zmax] gets elevation [zmax], any other keeps its
    elevation; the planar position is kept either way, and the texture image
    and every vertex's texture coordinate are those of the unclamped mesh:
    they are the same for every [zmax]. *)
Theorem drape_clamps_elevation_only (array : ImageRaster) (dem : ElevationMesh)
    (zmax : Q) :
  image_crs array = dem_crs dem ->
  exists draped texture tcoords,
    drape_array_over_dem array dem zmax = inr (draped, texture, tcoords) /\
    length draped = length (dem_vertices dem) /\
    (forall i v, dem_vertices dem !! i = Some v ->
       exists v',
         draped !! i = Some v' /\
         vx v' = vx v /\ vy v' = vy v /\
         ((zmax < vz v)%Q -> vz v' = zmax) /\
         ((vz v <= zmax)%Q -> vz v' = vz v) /\
         tcoords !! i = Some (texture_coordinate array v)) /\
    (forall zmax', exists draped',
        drape_array_over_dem array dem zmax' = inr (draped', texture, tcoords)).
Proof.
  intros Hcrs. unfold drape_array_over_dem.
  destruct (decide (image_crs array = dem_crs dem)) as [_|N]; [|contradiction].
  eexists _, _, _. split; [reflexivity|].
  split; [apply length_map|]. split.
  - intros i v Hv. exists (clamp_elevation zmax v).
    rewrite !lookup_map, Hv. simpl.
    repeat split; destruct (Qlt_le_dec zmax (vz v)) as [H|H];
      intros; try reflexivity; lra.
  - intros zmax'. eexists. reflexivity.
Qed.

(** C6 on the script's call: a vertex at 3100 m comes out at 3000 m, one at
    2400 m stays. *)
Lemma drape_clamps_elevation_only_at_3000 :
  image_crs sample_image = dem_crs sample_dem /\
  exists draped texture tcoords,
    drape_array_over_dem sample_image sample_dem 3000 = inr (draped, texture, tcoords) /\
    length draped = length (dem_vertices sample_dem) /\
    (forall i v, dem_vertices sample_dem !! i = Some v ->
       exists v',
         draped !! i = Some v' /\
         vx v' = vx v /\ vy v' = vy v /\
         ((3000 < vz v)%Q -> vz v' = 3000%Q) /\
         ((vz v <= 3000)%Q -> vz v' = vz v) /\
         tcoords !! i = Some (texture_coordinate sample_image v)) /\
    (forall zmax', exists draped',
        drape_array_over_dem sample_image sample_dem zmax' = inr (draped', texture, tcoords)).
Proof.
  split; [reflexivity|].
  apply (drape_clamps_elevation_only sample_image sample_dem 3000). reflexivity.
Defined.

Example mesh_aerial_texture_sample :
  exists draped texture tcoords,
    mesh_aerial_texture sample_image sample_dem = inr (draped, texture, tcoords) /\
    map vz draped = [3000; 2400]%Q.
Proof. eexists _, _, _. split; reflexivity. Qed.

(** ** Building the scene *)

Lemma build_profiles_loop (vel : nat -> Q * Q) (k : nat) (w : World) :
  for_range k (fun i => actor_profile_append (add_mesh 1 (vel i))) w
  = Ok tt (with_actor_profile
             (actor_profile w ++ map (fun i => add_mesh 1 (vel i)) (seq 0 k)) w).
Proof.
  induction k as [|k IH].
  - destruct w. unfold with_actor_profile. simpl. rewrite app_nil_r. reflexivity.
  - rewrite for_range_S, (bind_Ok _ _ _ _ _ IH).
    rewrite seq_S, map_app, app_assoc.
    unfold actor_profile_append, with_actor_profile. reflexivity.
Qed.

Lemma build_scene_run (n : nat) (vel : nat -> Q * Q) (elev res : Q * Q) :
  build_scene vel elev res (initial_world n) = Ok tt (built n vel elev res).
Proof.
  unfold build_scene, get_len_mesh, bind. rewrite build_profiles_loop.
  reflexivity.
Qed.

Lemma replicate_eq_length {A} (x : A) (n m : nat) :
  replicate n x = replicate m x <-> n = m.
Proof.
  split; [|intros ->; reflexivity].
  intros H. apply (f_equal length) in H.
  rewrite !length_replicate in H. exact H.
Qed.

Lemma built_visibility (n : nat) (vel : nat -> Q * Q) :
  map Visibility (map (fun i => add_mesh 1 (vel i)) (seq 0 n)) = replicate n true.
Proof.
  rewrite map_map. simpl. rewrite map_const, length_seq. reflexivity.
Qed.

(** X1: the layout block leaves one visible actor per profile mesh, one DEM
    actor and one CMD actor and emits no redraw signal; since the visibility
    list of the profiles is written out with five entries, the scene is the
    well-formed one, with every visibility entry mirroring its actor, exactly
    when there are five profile meshes. *)
Theorem build_scene_well_formed_iff_five (n : nat) (vel : nat -> Q * Q)
    (elev res : Q * Q) :
  exists w,
    build_scene vel elev res (initial_world n) = Ok tt w /\
    length (actor_profile w) = n /\
    length (actor_dem w) = 1 /\
    length (actor_cmd w) = 1 /\
    Forall (fun a => Visibility a = true)
           (actor_profile w ++ actor_dem w ++ actor_cmd w) /\
    calls w = [] /\
    (scene_ok w <-> n = 5) /\
    (mirrored w <-> n = 5).
Proof.
  exists (built n vel elev res). split; [apply build_scene_run|].
  simpl. rewrite length_map, length_seq.
  split; [reflexivity|]. split; [reflexivity|]. split; [reflexivity|].
  split; [|split; [reflexivity|split; split]].
  - apply List.Forall_forall. intros a Ha.
    apply in_app_iff in Ha. destruct Ha as [Ha|Ha].
    + apply in_map_iff in Ha. destruct Ha as (i & <- & _). reflexivity.
    + simpl in Ha. destruct Ha as [<-|[<-|[]]]; reflexivity.
  - intros (H & _). simpl in H. symmetry. exact H.
  - intros ->. unfold scene_ok. simpl. repeat split.
  - intros (H & _). simpl in H. rewrite built_visibility in H.
    apply (replicate_eq_length true 5 n) in H. congruence.
  - intros ->. unfold mirrored. simpl. repeat split.
Qed.

(** ** One intent on a built scene *)

Lemma insert_as_alter {A} (f : A -> A) (l : list A) (i : nat) (x : A) :
  l !! i = Some x -> <[i := f x]> l = alter f i l.
Proof.
  revert i. induction l as [|y l IH]; intros [|i] H; simpl in *;
    try discriminate.
  - injection H as ->. reflexivity.
  - f_equal. apply IH. exact H.
Qed.

Lemma map_Visibility_alter (v : bool) (l : list Actor) (i : nat) :
  map Visibility (alter (set_visible v) i l)
  = match l !! i with
    | Some _ => <[i := v]> (map Visibility l)
    | None => map Visibility l
    end.
Proof.
  revert i. induction l as [|y l IH]; intros [|i]; simpl; try reflexivity.
  change (list_alter (set_visible v) i l) with (alter (set_visible v) i l).
  rewrite IH. destruct (l !! i); reflexivity.
Qed.

Lemma dispatch_effect (e : Intent) (w : World) :
  scene_ok w -> offered w e -> dispatch e w = Ok tt (effect e w).
Proof.
  intros scene Hoff.
  destruct (scene_profiles w scene) as (Hvl & Hap).
  destruct (scene_dem w scene) as (bd & ad & Ebd & Ead).
  destruct (scene_cmd w scene) as (bc & ac & Ebc & Eac).
  destruct e as [i v|v|v|r|r|o|o|[id v]]; simpl in *.
  - destruct (lookup_lt_is_Some_2 (visibilityList w) i Hoff) as [b Hb].
    destruct (lookup_lt_is_Some_2 (actor_profile w) i ltac:(lia)) as [x Hx].
    rewrite (update_profile_visibility_run i v b x w Hb Hx).
    rewrite (insert_as_alter (set_visible v) _ _ _ Hx). reflexivity.
  - rewrite (update_DEM_visibility_run v bd [] ad [] w Ebd Ead).
    rewrite Ebd, Ead. reflexivity.
  - rewrite (update_CMD_visibility_run v bc [] ac [] w Ebc Eac).
    rewrite Ebc, Eac. reflexivity.
  - apply set_vel_range_run. exact Hap.
  - rewrite (set_res_range_run r ac [] w Eac). rewrite Eac. reflexivity.
  - rewrite (update_opacity_dem_run o ad [] w Ead). rewrite Ead. reflexivity.
  - rewrite (update_opacity_cmd_run o ac [] w Eac). rewrite Eac. reflexivity.
  - destruct (decide (id = "1")) as [->|N1]; [|destruct (decide (id = "2")) as [->|N2]].
    + rewrite (visibility_change_profiles v w Hvl Hap).
      rewrite map_const, Hvl. reflexivity.
    + rewrite (visibility_change_maps v bd bc [] [] ad ac [] [] w Ebd Ead Ebc Eac).
      rewrite Ebd, Ead, Ebc, Eac. reflexivity.
    + unfold visibility_change. simpl.
      destruct (decide (id = "1")); [contradiction|].
      destruct (decide (id = "2")); [contradiction|]. reflexivity.
Qed.

Lemma effect_lengths (e : Intent) (w : World) :
  len_mesh (effect e w) = len_mesh w /\
  length (visibilityList (effect e w)) = length (visibilityList w) /\
  length (actor_profile (effect e w)) = length (actor_profile w) /\
  length (visibilityDEM (effect e w)) = length (visibilityDEM w) /\
  length (actor_dem (effect e w)) = length (actor_dem w) /\
  length (visibilityCMD (effect e w)) = length (visibilityCMD w) /\
  length (actor_cmd (effect e w)) = length (actor_cmd w).
Proof.
  destruct e as [i v|v|v|r|r|o|o|[id v]]; simpl;
    try (destruct (decide (id = "1")); [|destruct (decide (id = "2"))]; simpl);
    rewrite ?length_insert, ?length_alter, ?length_map; repeat split.
Qed.

Lemma effect_scene_ok (e : Intent) (w : World) :
  scene_ok w -> scene_ok (effect e w).
Proof.
  intros (H1 & H2 & H3 & H4 & H5 & H6).
  destruct (effect_lengths e w) as (E0 & E1 & E2 & E3 & E4 & E5 & E6).
  unfold scene_ok. rewrite E0, E1, E2, E3, E4, E5, E6. repeat split; assumption.
Qed.

Lemma effect_offered (e e' : Intent) (w : World) :
  offered w e' -> offered (effect e w) e'.
Proof.
  destruct (effect_lengths e w) as (_ & E1 & _).
  destruct e'; simpl; try exact id. rewrite E1. exact id.
Qed.

Lemma map_Visibility_set_visible (v : bool) (l : list Actor) :
  map Visibility (map (set_visible v) l) = map (fun _ => v) l.
Proof. rewrite map_map. reflexivity. Qed.

Lemma map_Visibility_set_range (r : Q * Q) (l : list Actor) :
  map Visibility (map (set_range r) l) = map Visibility l.
Proof. rewrite map_map. reflexivity. Qed.

Lemma map_Visibility_set_opacity (o : Q) (l : list Actor) :
  map Visibility (map (set_opacity o) l) = map Visibility l.
Proof. rewrite map_map. reflexivity. Qed.

Lemma map_const_map {A B C} (y : C) (f : A -> B) (l : list A) :
  map (fun _ => y) (map f l) = map (fun _ => y) l.
Proof. rewrite map_map. reflexivity. Qed.

Lemma effect_mirrored (e : Intent) (w : World) :
  scene_ok w -> offered w e -> mirrored w -> mirrored (effect e w).
Proof.
  intros scene Hoff (M1 & M2 & M3).
  destruct (scene_profiles w scene) as (Hvl & Hap).
  destruct e as [i v|v|v|r|r|o|o|[id v]]; simpl in *;
    try (destruct (decide (id = "1")); [|destruct (decide (id = "2"))]; simpl);
    unfold mirrored; simpl;
    rewrite ?map_Visibility_set_visible, ?map_Visibility_set_range,
      ?map_Visibility_set_opacity;
    repeat split; try assumption;
    try (rewrite M1; apply map_const_map);
    try (rewrite M2; apply map_const_map);
    try (rewrite M3; apply map_const_map).
  rewrite map_Visibility_alter.
  destruct (lookup_lt_is_Some_2 (actor_profile w) i ltac:(lia)) as [x ->].
  rewrite M1. reflexivity.
Qed.

Lemma effect_redraws (e : Intent) (w : World) :
  redraws (calls (effect e w))
  = redraws (calls w) + redraw_cost (len_mesh w) e.
Proof.
  destruct e as [i v|v|v|r|r|o|o|[id v]]; simpl;
    try (destruct (decide (id = "1")); [|destruct (decide (id = "2"))]; simpl);
    rewrite !redraws_app, ?redraws_profile_calls, ?redraws_range_calls,
      ?length_seq; simpl; lia.
Qed.

(** ** Runs of intents *)

Lemma serve_cons (e : Intent) (es : list Intent) (w : World) :
  scene_ok w -> offered w e ->
  serve (e :: es) w = serve es (effect e w).
Proof.
  intros scene Hoff. unfold serve. simpl.
  rewrite (bind_Ok _ _ _ _ _ (dispatch_effect e w scene Hoff)). reflexivity.
Qed.

Lemma serve_invariant (es : list Intent) (w : World) :
  scene_ok w ->
  Forall (offered w) es ->
  exists w',
    serve es w = Ok tt w' /\
    scene_ok w' /\
    len_mesh w' = len_mesh w /\
    redraws (calls w')
    = redraws (calls w) + list_sum (map (redraw_cost (len_mesh w)) es) /\
    (mirrored w -> mirrored w').
Proof.
  revert w. induction es as [|e es IH]; intros w scene Hall.
  - exists w. simpl. split; [reflexivity|]. split; [exact scene|].
    split; [reflexivity|]. split; [lia | exact id].
  - inversion Hall as [|e' es' Hoff Hrest]; subst.
    destruct (IH (effect e w)) as (w' & Hrun & Hok & Hlen & Hred & Hmir).
    + apply effect_scene_ok. exact scene.
    + eapply List.Forall_impl; [|exact Hrest].
      intros e'. apply effect_offered.
    + destruct (effect_lengths e w) as (E0 & _).
      exists w'. rewrite (serve_cons e es w scene Hoff).
      split; [exact Hrun|]. split; [exact Hok|].
      split; [congruence|]. split.
      * rewrite Hred, E0, effect_redraws. simpl. lia.
      * intros M. apply Hmir. apply effect_mirrored; assumption.
Qed.

(** X2: on a scene as the script builds it, any sequence of intents the
    widgets can send runs to its end without an exception; the scene keeps
    its shape, and the redraw signals add up intent by intent: one per
    setter, [n + 1] for a toggle of the [n] profiles, three for a toggle of
    the images and maps, one for a tree event with any other id. *)
Theorem serve_never_raises (es : list Intent) (w : World) :
  scene_ok w ->
  Forall (offered w) es ->
  exists w',
    serve es w = Ok tt w' /\
    scene_ok w' /\
    len_mesh w' = len_mesh w /\
    redraws (calls w')
    = redraws (calls w) + list_sum (map (redraw_cost (len_mesh w)) es).
Proof.
  intros scene Hall.
  destruct (serve_invariant es w scene Hall) as (w' & H1 & H2 & H3 & H4 & _).
  exists w'. split; [exact H1|]. split; [exact H2|]. split; assumption.
Qed.

Lemma serve_never_raises_on_script_scene :
  scene_ok script_scene /\
  Forall (offered script_scene)
    [profile_checkbox 4 false; tree_visibility (mkEvent "1" true);
     res_range_change (10, 5)%Q; mnt_opacity_change 2;
     tree_visibility (mkEvent "3" false)] /\
  exists w',
    serve [profile_checkbox 4 false; tree_visibility (mkEvent "1" true);
           res_range_change (10, 5)%Q; mnt_opacity_change 2;
           tree_visibility (mkEvent "3" false)] script_scene = Ok tt w' /\
    scene_ok w' /\
    len_mesh w' = len_mesh script_scene /\
    redraws (calls w')
    = redraws (calls script_scene)
      + list_sum (map (redraw_cost (len_mesh script_scene))
           [profile_checkbox 4 false; tree_visibility (mkEvent "1" true);
            res_range_change (10, 5)%Q; mnt_opacity_change 2;
            tree_visibility (mkEvent "3" false)]).
Proof.
  split; [repeat split|]. split; [repeat constructor|].
  apply (serve_never_raises _ script_scene); [repeat split | repeat constructor].
Defined.

(** X3: the visibility lists of the trame state mirror the actors.  If every
    visibility entry equals the visibility of the actor at its index, this is
    still so after any sequence of intents. *)
Theorem serve_keeps_mirror (es : list Intent) (w : World) :
  scene_ok w ->
  mirrored w ->
  Forall (offered w) es ->
  exists w', serve es w = Ok tt w' /\ mirrored w'.
Proof.
  intros scene M Hall.
  destruct (serve_invariant es w scene Hall) as (w' & H1 & _ & _ & _ & H5).
  exists w'. split; [exact H1 | exact (H5 M)].
Qed.

Lemma serve_keeps_mirror_on_script_scene :
  scene_ok script_scene /\
  mirrored script_scene /\
  Forall (offered script_scene)
    [profile_checkbox 2 false; tree_visibility (mkEvent "2" false);
     DEM_checkbox true; vel_range_change (1600, 2800)%Q] /\
  exists w',
    serve [profile_checkbox 2 false; tree_visibility (mkEvent "2" false);
           DEM_checkbox true; vel_range_change (1600, 2800)%Q] script_scene
    = Ok tt w' /\
    mirrored w'.
Proof.
  split; [repeat split|]. split; [repeat split|]. split; [repeat constructor|].
  apply (serve_keeps_mirror _ script_scene);
    [repeat split | repeat split | repeat constructor].
Defined.

(** ** The last writer wins *)

Lemma alter_set_visible_twice (v1 v2 : bool) (i : nat) (l : list Actor) :
  alter (set_visible v2) i (alter (set_visible v1) i l)
  = alter (set_visible v2) i l.
Proof.
  revert i. induction l as [|x l IH]; intros [|i]; simpl; try reflexivity.
  f_equal. apply IH.
Qed.

Lemma map_set_twice (f g : Actor -> Actor) (l : list Actor) :
  (forall x, g (f x) = g x) -> map g (map f l) = map g l.
Proof.
  intros H. rewrite map_map. apply map_ext. exact H.
Qed.

Lemma effect_overwrites (e1 e2 : Intent) (w : World) :
  same_target e1 e2 ->
  layers (effect e2 (effect e1 w)) = layers (effect e2 w).
Proof.
  destruct e1 as [i1 v1|v1|v1|r1|r1|o1|o1|[id1 v1]];
    destruct e2 as [i2 v2|v2|v2|r2|r2|o2|o2|[id2 v2]];
    simpl; try contradiction; intros Hsame.
  - subst i2. unfold layers, with_calls. simpl.
    rewrite alter_set_visible_twice, list_insert_insert_eq. reflexivity.
  - unfold layers, with_calls. simpl.
    rewrite map_const_map, (map_set_twice (set_visible v1)) by reflexivity.
    reflexivity.
  - unfold layers, with_calls. simpl.
    rewrite map_const_map, (map_set_twice (set_visible v1)) by reflexivity.
    reflexivity.
  - unfold layers, with_calls. simpl.
    rewrite (map_set_twice (set_range r1)) by reflexivity. reflexivity.
  - unfold layers, with_calls. simpl.
    rewrite (map_set_twice (set_range r1)) by reflexivity. reflexivity.
  - unfold layers, with_calls. simpl.
    rewrite (map_set_twice (set_opacity o1)) by reflexivity. reflexivity.
  - unfold layers, with_calls. simpl.
    rewrite (map_set_twice (set_opacity o1)) by reflexivity. reflexivity.
  - subst id2.
    destruct (decide (id1 = "1")); [|destruct (decide (id1 = "2"))];
      unfold layers, with_calls; simpl;
      rewrite ?map_const_map, ?(map_set_twice (set_visible v1)) by reflexivity;
      reflexivity.
Qed.

(** X4: a setter overwrites.  When two intents write the same attribute of
    the same layers (the same checkbox, the same slider, the same group of
    the tree), sending the first and then the second leaves the layers as the
    second alone does; in particular sending an intent twice leaves them as
    sending it once. *)
Theorem last_writer_wins (e1 e2 : Intent) (w : World) :
  scene_ok w ->
  offered w e1 ->
  offered w e2 ->
  same_target e1 e2 ->
  exists w12 w2,
    serve [e1; e2] w = Ok tt w12 /\
    serve [e2] w = Ok tt w2 /\
    layers w12 = layers w2.
Proof.
  intros scene H1 H2 Hsame.
  exists (effect e2 (effect e1 w)), (effect e2 w).
  split; [|split].
  - rewrite (serve_cons e1 [e2] w scene H1).
    rewrite (serve_cons e2 [] (effect e1 w)).
    + reflexivity.
    + apply effect_scene_ok. exact scene.
    + apply effect_offered. exact H2.
  - rewrite (serve_cons e2 [] w scene H2). reflexivity.
  - apply effect_overwrites. exact Hsame.
Qed.

Lemma last_writer_wins_on_script_scene :
  scene_ok script_scene /\
  offered script_scene (profile_checkbox 1 false) /\
  offered script_scene (profile_checkbox 1 true) /\
  same_target (profile_checkbox 1 false) (profile_checkbox 1 true) /\
  exists w12 w2,
    serve [profile_checkbox 1 false; profile_checkbox 1 true] script_scene
    = Ok tt w12 /\
    serve [profile_checkbox 1 true] script_scene = Ok tt w2 /\
    layers w12 = layers w2.
Proof.
  split; [repeat split|]. split; [simpl; lia|]. split; [simpl; lia|].
  split; [reflexivity|].
  apply (last_writer_wins (profile_checkbox 1 false) (profile_checkbox 1 true)
           script_scene); [repeat split | simpl; lia | simpl; lia | reflexivity].
Defined.

(** ** Index errors *)

(** X5: [update_profile_visibility] raises [IndexError] exactly when the
    index is outside [visibilityList] or outside [actor_profile].  Outside
    [visibilityList] nothing has changed; inside it but outside
    [actor_profile], the visibility entry has already been overwritten and
    marked dirty when the exception leaves, the actors are untouched and no
    redraw signal has been emitted. *)
Theorem update_profile_visibility_raises (i : nat) (v : bool) (w : World) :
  ((exists w', update_profile_visibility i v w = Raise IndexError w') <->
   (length (visibilityList w) <= i \/ length (actor_profile w) <= i)) /\
  (length (visibilityList w) <= i ->
   update_profile_visibility i v w = Raise IndexError w) /\
  (i < length (visibilityList w) -> length (actor_profile w) <= i ->
   update_profile_visibility i v w
   = Raise IndexError
       (with_calls (calls w ++ [dirty "visibilityList"])
          (with_visibilityList (<[i := v]> (visibilityList w)) w))).
Proof.
  assert (Hout : length (visibilityList w) <= i ->
                 update_profile_visibility i v w = Raise IndexError w).
  { intros H. run_py. rewrite (lookup_ge_None_2 _ _ H). reflexivity. }
  assert (Hmid : i < length (visibilityList w) -> length (actor_profile w) <= i ->
                 update_profile_visibility i v w
                 = Raise IndexError
                     (with_calls (calls w ++ [dirty "visibilityList"])
                        (with_visibilityList (<[i := v]> (visibilityList w)) w))).
  { intros Hv Ha. destruct (lookup_lt_is_Some_2 _ _ Hv) as [b Hb].
    run_py. rewrite Hb. simpl. rewrite (lookup_ge_None_2 _ _ Ha). reflexivity. }
  split; [|split; assumption].
  split.
  - intros (w' & Hr).
    destruct (decide (length (visibilityList w) <= i)) as [|Hv]; [left; assumption|].
    destruct (decide (length (actor_profile w) <= i)) as [|Ha]; [right; assumption|].
    destruct (lookup_lt_is_Some_2 (visibilityList w) i ltac:(lia)) as [b Hb].
    destruct (lookup_lt_is_Some_2 (actor_profile w) i ltac:(lia)) as [x Hx].
    rewrite (update_profile_visibility_run i v b x w Hb Hx) in Hr. discriminate.
  - intros [H|H].
    + eexists. apply Hout. exact H.
    + destruct (decide (length (visibilityList w) <= i)) as [Hv|Hv].
      * eexists. apply Hout. exact Hv.
      * eexists. apply Hmid; [lia | exact H].
Qed.

(** With four profile meshes the fifth checkbox is still drawn; ticking it
    off rewrites its entry and then fails on the missing actor. *)
Example update_profile_visibility_fifth_of_four :
  update_profile_visibility 4 false four_meshes
  = Raise IndexError
      (mkWorld 4 [true; true; true; true; false] [true] [true]
         (replicate 4 (shown 1 (1000, 4000)%Q))
         [shown (7 # 10) (2000, 2500)%Q] [shown 1 (10, 500)%Q]
         [dirty "visibilityList"]).
Proof. reflexivity. Qed.

Lemma for_range_split (a b : nat) (body : nat -> Py unit) (w : World) :
  for_range (a + b) body w
  = (for_range a body ;;; for_in (seq a b) body) w.
Proof. unfold for_range. rewrite seq_app, for_in_app. reflexivity. Qed.

(** X6: with more profile meshes than entries in [visibilityList], a toggle
    of the profile group raises [IndexError] part-way: the profiles that have
    a visibility entry are updated and redrawn one by one, the others keep
    their visibility, and the redraw signal that closes the group is not
    emitted. *)
Theorem visibility_change_raises_past_visibilityList (v : bool) (w : World) :
  length (visibilityList w) < len_mesh w ->
  length (visibilityList w) <= length (actor_profile w) ->
  exists w',
    visibility_change (mkEvent "1" v) w = Raise IndexError w' /\
    visibilityList w' = map (fun _ => v) (visibilityList w) /\
    actor_profile w'
    = map (set_visible v) (take (length (visibilityList w)) (actor_profile w))
      ++ drop (length (visibilityList w)) (actor_profile w) /\
    redraws (calls w') = redraws (calls w) + length (visibilityList w).
Proof.
  intros Hlt Hle.
  set (L := length (visibilityList w)) in *.
  exists (after_profiles L v w). split; [|split; [|split]].
  - unfold visibility_change. simpl.
    unfold bind at 1. unfold bind at 1. unfold get_len_mesh at 1.
    replace (len_mesh w) with (L + S (len_mesh w - S L)) by lia.
    rewrite for_range_split. unfold bind at 1.
    rewrite profiles_loop by (fold L; lia). simpl.
    unfold bind at 1.
    assert (Hraise : update_profile_visibility L v (after_profiles L v w)
                     = Raise IndexError (after_profiles L v w)).
    { run_py. rewrite upto_lookup_next.
      rewrite (lookup_ge_None_2 (visibilityList w) L) by (fold L; lia).
      reflexivity. }
    rewrite Hraise. reflexivity.
  - simpl. apply upto_all. fold L. lia.
  - reflexivity.
  - simpl. rewrite redraws_app, redraws_profile_calls, length_seq. reflexivity.
Qed.

Lemma visibility_change_raises_with_six_meshes :
  length (visibilityList six_meshes) < len_mesh six_meshes /\
  length (visibilityList six_meshes) <= length (actor_profile six_meshes) /\
  exists w',
    visibility_change (mkEvent "1" false) six_meshes = Raise IndexError w' /\
    visibilityList w' = map (fun _ => false) (visibilityList six_meshes) /\
    actor_profile w'
    = map (set_visible false)
          (take (length (visibilityList six_meshes)) (actor_profile six_meshes))
      ++ drop (length (visibilityList six_meshes)) (actor_profile six_meshes) /\
    redraws (calls w') = redraws (calls six_meshes) + length (visibilityList six_meshes).
Proof.
  split; [simpl; lia|]. split; [simpl; lia|].
  apply (visibility_change_raises_past_visibilityList false six_meshes);
    simpl; lia.
Defined.

Example visibility_change_six_meshes_sixth_stays :
  map Visibility
    (actor_profile (the_world (visibility_change (mkEvent "1" false) six_meshes)))
  = [false; false; false; false; false; true].
Proof. reflexivity. Qed.

(** X7: a tree event whose id is neither "1" nor "2" (the node "3",
    "Colormap settings", or any other) changes no layer, whatever the world,
    and emits exactly one redraw signal. *)
Theorem visibility_change_other_id (event : VisibilityEvent) (w : World) :
  event_id event <> "1" ->
  event_id event <> "2" ->
  exists w',
    visibility_change event w = Ok tt w' /\
    layers w' = layers w /\
    calls w' = calls w ++ [view_update] /\
    redraws (calls w') = redraws (calls w) + 1.
Proof.
  intros N1 N2. exists (with_calls (calls w ++ [view_update]) w).
  split; [|split; [|split]].
  - unfold visibility_change.
    destruct (decide (event_id event = "1")); [contradiction|].
    destruct (decide (event_id event = "2")); [contradiction|]. reflexivity.
  - reflexivity.
  - reflexivity.
  - simpl. rewrite redraws_app. reflexivity.
Qed.

Lemma visibility_change_other_id_node_3 :
  "3" <> "1" /\ "3" <> "2" /\
  exists w',
    visibility_change (mkEvent "3" false) script_scene = Ok tt w' /\
    layers w' = layers script_scene /\
    calls w' = calls script_scene ++ [view_update] /\
    redraws (calls w') = redraws (calls script_scene) + 1.
Proof.
  split; [discriminate|]. split; [discriminate|].
  apply (visibility_change_other_id (mkEvent "3" false) script_scene);
    discriminate.
Defined.

(** ** Setters touch one attribute *)

Lemma map_Opacity_set_visible (v : bool) (l : list Actor) :
  map Opacity (map (set_visible v) l) = map Opacity l.
Proof. rewrite map_map. reflexivity. Qed.

Lemma map_range_set_visible (v : bool) (l : list Actor) :
  map scalar_range (map (set_visible v) l) = map scalar_range l.
Proof. rewrite map_map. reflexivity. Qed.






(** ** The drawer *)

(** X9: [actives_change] looks at the first id only and fails with
    [IndexError] on an empty selection.  After it, at most one card of the
    drawer is shown: the card of the selected node when the id is one of the
    pipeline tree ("1", "2", "3"), and no card for any other id; before the
    first selection no card is shown. *)
Theorem actives_change_shows_one_card (_id : string) (rest : list string) :
  actives_change [] = inl IndexError /\
  shown_cards None = [] /\
  exists ui,
    actives_change (_id :: rest) = inr ui /\
    actives_change [_id] = inr ui /\
    (In _id (map node_id pipeline) -> shown_cards (Some ui) = [ui]) /\
    (~ In _id (map node_id pipeline) -> shown_cards (Some ui) = []).
Proof.
  split; [reflexivity|]. split; [reflexivity|].
  unfold actives_change. simpl.
  destruct (decide (_id = "1")) as [->|N1];
    [|destruct (decide (_id = "2")) as [->|N2];
      [|destruct (decide (_id = "3")) as [->|N3]]];
    eexists; (split; [reflexivity|]); (split; [reflexivity|]); split;
    try (intros _; reflexivity);
    try (intros H; exfalso; apply H; simpl; tauto).
  intros [H|[H|[H|[]]]]; congruence.
Qed.

Example actives_change_examples :
  actives_change ["2"; "1"] = inr "Images and maps" /\
  shown_cards (Some "Images and maps") = ["Images and maps"] /\
  actives_change ["7"] = inr "nothing".
Proof. repeat split. Qed.

(** ** Labels *)

Lemma rfind_None (c : ascii) (s : str) : rfind c s = None -> c ∉ s.
Proof.
  induction s as [|x s IH]; simpl; intros H.
  - apply not_elem_of_nil.
  - destruct (rfind c s) as [i|]; [discriminate|].
    destruct (decide (x = c)) as [|N]; [discriminate|].
    apply not_elem_of_cons. split; [congruence | apply IH; reflexivity].
Qed.

Lemma rfind_Some (c : ascii) (s : str) (i : nat) :
  rfind c s = Some i -> c ∉ drop (S i) s.
Proof.
  revert i. induction s as [|x s IH]; simpl; intros i H; [discriminate|].
  destruct (rfind c s) as [k|] eqn:E.
  - injection H as <-. apply IH. reflexivity.
  - destruct (decide (x = c)); [|discriminate].
    injection H as <-. simpl. rewrite drop_0. apply rfind_None. exact E.
Qed.

Lemma os_path_split_tail (p : str) :
  (snd (os_path_split p) `suffix_of` p) /\ "/"%char ∉ snd (os_path_split p).
Proof.
  unfold os_path_split. simpl. split; [apply suffix_drop|].
  destruct (rfind "/"%char p) as [k|] eqn:E.
  - apply rfind_Some. exact E.
  - rewrite drop_0. apply rfind_None. exact E.
Qed.

Lemma os_path_splitext_root (p : str) :
  fst (os_path_splitext p) `prefix_of` p.
Proof.
  unfold os_path_splitext.
  destruct (rfind "."%char p) as [dotIndex|]; [|reflexivity].
  destruct (decide _); [|reflexivity].
  destruct (forallb _ _); [reflexivity|]. simpl. apply prefix_take.
Qed.

Lemma label_unfold (temp : str) :
  label temp = take 15 (fst (os_path_splitext (snd (os_path_split temp)))).
Proof.
  unfold label. destruct (os_path_split temp) as [d f]. simpl.
  destruct (os_path_splitext f) as [r e]. reflexivity.
Qed.

(** X10: the label of a profile is cut from the file name alone: it is a
    prefix of the last component of the path, has at most fifteen characters
    and contains no slash; [name_mesh] holds one label per file, in order. *)
Theorem label_is_a_short_prefix (temp : str) (files : list str) :
  (label temp `prefix_of` snd (os_path_split temp)) /\
  (snd (os_path_split temp) `suffix_of` temp) /\
  length (label temp) <= 15 /\
  ("/"%char ∉ label temp) /\
  length (name_mesh files) = length files /\
  (forall k f, files !! k = Some f -> name_mesh files !! k = Some (label f)).
Proof.
  destruct (os_path_split_tail temp) as (Hsuf & Hno).
  assert (Hpre : label temp `prefix_of` snd (os_path_split temp)).
  { rewrite label_unfold.
    transitivity (fst (os_path_splitext (snd (os_path_split temp)))).
    - apply prefix_take.
    - apply os_path_splitext_root. }
  split; [exact Hpre|]. split; [exact Hsuf|]. split; [|split; [|split]].
  - rewrite label_unfold, length_take. lia.
  - intros Hin. apply Hno. destruct Hpre as [k ->].
    apply elem_of_app. left. exact Hin.
  - apply length_map.
  - intros k f Hf. unfold name_mesh. rewrite lookup_map, Hf. reflexivity.
Qed.

(** The labels of the script's five files, and two files that share one. *)
Example name_mesh_of_the_script :
  name_mesh vtk_file_list
  = map String.list_ascii_of_string
      ["aravo_seismic_A"; "aravo_seismic_B"; "aravo_seismic_C";
       "aravo_seismic_D"; "aravo_seismic_E"].
Proof. reflexivity. Qed.

Example label_collision :
  label (String.list_ascii_of_string "vtk/aravo_seismic_A_topo_ok_time_ok_utm.vtk")
  = label (String.list_ascii_of_string "old/aravo_seismic_A_raw.vtk").
Proof. reflexivity. Qed.
